(** * SublimeUberSettings: hierarchical settings resolution

    A shallow embedding of [SublimeUberSettings.py].  The plugin walks from
    the directory of a view's file up to the filesystem root, loads two
    settings files per directory, merges them (nearer directories win) and
    writes the result once into the view's settings.

    Python strings are [string]; the path functions of [os.path] are the
    POSIX ones ([posixpath]), written out on strings; dictionaries are
    insertion-ordered association lists; the file system, the working
    directory and [sublime.decode_value] are supplied by an environment
    record; exceptions and observable effects (file probes, opens, prints,
    settings writes) are carried by a small trace-and-error monad. *)

From Stdlib Require Import String Ascii List ZArith Bool Lia Arith.
Import ListNotations.
Open Scope string_scope.
Open Scope list_scope.

(** ** Python string operations used by the source and by [posixpath] *)

Module Str.

Definition sep : ascii := "/"%char.

(** [s.startswith(p)] *)
Fixpoint startswith (p s : string) : bool :=
  match p, s with
  | EmptyString, _ => true
  | String a p', String b s' => Ascii.eqb a b && startswith p' s'
  | String _ _, EmptyString => false
  end.

(** [s.endswith("/")] *)
Fixpoint endswith_sep (s : string) : bool :=
  match s with
  | EmptyString => false
  | String c EmptyString => Ascii.eqb c sep
  | String _ s' => endswith_sep s'
  end.

(** [s.split("/")] *)
Fixpoint split (s : string) : list string :=
  match s with
  | EmptyString => [EmptyString]
  | String c s' =>
      if Ascii.eqb c sep then EmptyString :: split s'
      else match split s' with
           | [] => [String c EmptyString]
           | w :: ws => String c w :: ws
           end
  end.

(** ["/".join(l)] *)
Fixpoint join (l : list string) : string :=
  match l with
  | [] => EmptyString
  | [x] => x
  | x :: l' => (x ++ String sep (join l'))%string
  end.

(** [c * n] for a one-character string *)
Fixpoint repeat_sep (n : nat) : string :=
  match n with
  | O => EmptyString
  | S n' => String sep (repeat_sep n')
  end.

(** [s[i:]] where [i = s.rfind(c) + 1]: the part after the last [c], the
    whole string when [c] does not occur. *)
Fixpoint after_last (c : ascii) (s : string) : string :=
  match s with
  | EmptyString => EmptyString
  | String a s' =>
      if existsb (Ascii.eqb c) (list_ascii_of_string s') then after_last c s'
      else if Ascii.eqb a c then s' else s
  end.

(** [s.rfind(c)], as an option instead of [-1]. *)
Fixpoint rfind (c : ascii) (s : string) : option nat :=
  match s with
  | EmptyString => None
  | String a s' =>
      match rfind c s' with
      | Some i => Some (S i)
      | None => if Ascii.eqb a c then Some O else None
      end
  end.

(** [s[:n]] *)
Fixpoint take (n : nat) (s : string) : string :=
  match n, s with
  | S n', String a s' => String a (take n' s')
  | _, _ => EmptyString
  end.

(** Does some character of [s[:n]] differ from [c]? *)
Fixpoint has_other (c : ascii) (n : nat) (s : string) : bool :=
  match n, s with
  | S n', String a s' => negb (Ascii.eqb a c) || has_other c n' s'
  | _, _ => false
  end.

End Str.

(** ** [posixpath] *)

Module PosixPath.

Definition pardir : string := "..".

Definition isabs (p : string) : bool := Str.startswith "/" p.

(** [os.path.join(a, b)] with one tail component. *)
Definition join (a b : string) : string :=
  if Str.startswith "/" b then b
  else if (String.eqb a "" || Str.endswith_sep a)%bool then (a ++ b)%string
  else (a ++ "/" ++ b)%string.

(** The number of leading slashes [normpath] keeps: two when the path
    starts with exactly two, one when it starts with one or with three or
    more, none otherwise. *)
Definition initial_slashes (path : string) : nat :=
  if Str.startswith "/" path then
    if (Str.startswith "//" path && negb (Str.startswith "///" path))%bool
    then 2 else 1
  else 0.

(** One turn of the loop over the components in [normpath]; [new_comps]
    is the Python list being built (append and pop at its end). *)
Definition norm_step (initial : nat) (new_comps : list string) (comp : string)
  : list string :=
  if (String.eqb comp "" || String.eqb comp ".")%bool then new_comps
  else if (negb (String.eqb comp "..")
           || (Nat.eqb initial 0 && match new_comps with [] => true | _ => false end)
           || (match new_comps with [] => false | _ => true end
               && String.eqb (last new_comps "") ".."))%bool
       then new_comps ++ [comp]
       else match new_comps with
            | [] => new_comps
            | _ => removelast new_comps
            end.

Definition normpath (path : string) : string :=
  if String.eqb path "" then "."
  else
    let initial := initial_slashes path in
    let comps := fold_left (norm_step initial) (Str.split path) [] in
    let path' := (Str.repeat_sep initial ++ Str.join comps)%string in
    if String.eqb path' "" then "." else path'.

(** [os.path.abspath], with the working directory [cwd]. *)
Definition abspath (cwd path : string) : string :=
  normpath (if isabs path then path else join cwd path).

(** [os.path.basename] *)
Definition basename (p : string) : string := Str.after_last "/" p.

(** [os.path.splitext(p)[0]]: the extension starts at the last dot, unless
    that dot is not after the last slash or only dots precede it in the
    file name. *)
Definition splitext_root (p : string) : string :=
  match Str.rfind "." p with
  | None => p
  | Some dot =>
      let file_start := match Str.rfind "/" p with Some i => S i | None => O end in
      if (file_start <=? dot)%nat
         && Str.has_other "." (dot - file_start)
              (Str.after_last "/" (Str.take dot p))
      then Str.take dot p else p
  end.

End PosixPath.

(** ** Python values, exceptions and dictionaries *)

(** Values a settings file can hold (what [sublime.decode_value] returns).
    Numbers are integers here; the plugin never inspects a value. *)
Set Warnings "-register-all".
Inductive json : Type :=
| JNull
| JBool (b : bool)
| JNum (n : Z)
| JStr (s : string)
| JList (l : list json)
| JDict (d : list (string * json)).

(** A Python [dict] with string keys: an association list in insertion
    order, each key at most once. *)
Definition dict : Type := list (string * json).

Inductive exn : Type :=
| TypeError (msg : string)
| AttributeError (msg : string)
| ValueError (msg : string)
| OSError (msg : string)
| UnicodeDecodeError (msg : string).

(** [repr(exception)] *)
Definition repr (e : exn) : string :=
  let show name msg := (name ++ "('" ++ msg ++ "')")%string in
  match e with
  | TypeError m => show "TypeError" m
  | AttributeError m => show "AttributeError" m
  | ValueError m => show "ValueError" m
  | OSError m => show "OSError" m
  | UnicodeDecodeError m => show "UnicodeDecodeError" m
  end.

Module Dict.

(** [d.get(k)] *)
Fixpoint get (k : string) (d : dict) : option json :=
  match d with
  | [] => None
  | (k', v) :: d' => if String.eqb k k' then Some v else get k d'
  end.

(** [d[k] = v]: an existing key keeps its position. *)
Fixpoint set (k : string) (v : json) (d : dict) : dict :=
  match d with
  | [] => [(k, v)]
  | (k', v') :: d' =>
      if String.eqb k k' then (k', v) :: d' else (k', v') :: set k v d'
  end.

(** [d.update(other)] *)
Definition update (d other : dict) : dict :=
  fold_left (fun acc kv => set (fst kv) (snd kv) acc) other d.

(** [d.items()] *)
Definition items (d : dict) : list (string * json) := d.

End Dict.

(** ** The host: file system, working directory, decoder, views *)

Inductive outcome (A : Type) : Type :=
| Ok (a : A)
| Raise (e : exn).
Arguments Ok {A} a.
Arguments Raise {A} e.

(** What the operating system answers for a path. *)
Inductive file_state : Type :=
| NotAFile                   (* [os.path.isfile] is false *)
| OpenFails (e : exn)        (* a regular file that [open] refuses *)
| ReadFails (e : exn)        (* opens, but [read] raises *)
| Text (content : string).   (* opens and reads *)

Record Env : Type := {
  getcwd : string;
  file_at : string -> file_state;
  decode_value : string -> outcome json
}.

(** A view as the plugin sees it: [view.id()] and [view.file_name()]
    ([None] for a buffer that was never saved).  Its settings object lives
    in the state, under the view's id. *)
Module View.
Record t : Type := { id : Z; file_name : option string }.
End View.

(** The module-level list [configured_views] and the settings objects of
    the views. *)
Record State : Type := {
  configured_views : list Z;
  stores : Z -> dict
}.

(** The effects one can observe from outside, in the order they occur:
    calls of [os.path.isfile] and [open], printed lines, and
    [view.settings().set]. *)
Inductive event : Type :=
| IsFile (path : string)
| OpenFile (path : string)
| Stdout (line : string)
| SettingsSet (view_id : Z) (name : string) (value : json).

(** ** Computations: state, trace of effects, exceptions, fuel

    [None] means the loop bound was used up; the state and the trace
    survive an exception. *)
Definition M (A : Type) : Type :=
  State -> option (list event * State * outcome A).

Definition ret {A} (a : A) : M A := fun st => Some ([], st, Ok a).

Definition raise {A} (e : exn) : M A := fun st => Some ([], st, Raise e).

Definition bind {A B} (m : M A) (k : A -> M B) : M B :=
  fun st =>
    match m st with
    | None => None
    | Some (tr, st', Raise e) => Some (tr, st', Raise e)
    | Some (tr, st', Ok a) =>
        match k a st' with
        | None => None
        | Some (tr', st'', r) => Some (tr ++ tr', st'', r)
        end
    end.

(** [try: m  except Exception as e: handler(e)] *)
Definition try_except {A} (m : M A) (handler : exn -> M A) : M A :=
  fun st =>
    match m st with
    | Some (tr, st', Raise e) =>
        match handler e st' with
        | None => None
        | Some (tr', st'', r) => Some (tr ++ tr', st'', r)
        end
    | other => other
    end.

Definition emit (ev : event) : M unit := fun st => Some ([ev], st, Ok tt).

Definition out_of_fuel {A} : M A := fun _ => None.

Declare Scope py_scope.
Delimit Scope py_scope with py.
Notation "x <- m ;; k" := (bind m (fun x => k))
  (at level 61, m at next level, right associativity) : py_scope.
Notation "m ;;; k" := (bind m (fun _ => k))
  (at level 61, right associativity) : py_scope.
Open Scope py_scope.

Definition print (line : string) : M unit := emit (Stdout line).

(** [os.path.isfile(file)] *)
Definition isfile (env : Env) (file : string) : M bool :=
  emit (IsFile file) ;;;
  ret (match file_at env file with NotAFile => false | _ => true end).

(** [open(file, encoding="utf-8")]: the file object is what [read] will
    give. *)
Definition open (env : Env) (file : string) : M (outcome string) :=
  emit (OpenFile file) ;;;
  match file_at env file with
  | NotAFile => raise (OSError "No such file or directory")
  | OpenFails e => raise e
  | ReadFails e => ret (Raise e)
  | Text content => ret (Ok content)
  end.

(** [file_object.read()] *)
Definition read (file_object : outcome string) : M string :=
  match file_object with
  | Ok content => ret content
  | Raise e => raise e
  end.

(** [sublime.decode_value(content)] *)
Definition decode (env : Env) (content : string) : M json :=
  match decode_value env content with
  | Ok v => ret v
  | Raise e => raise e
  end.

(** [view.settings().get(name)] *)
Definition settings_get (view : View.t) (name : string) : M (option json) :=
  fun st => Some ([], st, Ok (Dict.get name (stores st (View.id view)))).

(** [view.settings().set(name, value)] *)
Definition settings_set (view : View.t) (name : string) (value : json) : M unit :=
  fun st =>
    let i := View.id view in
    Some ([SettingsSet i name value],
          {| configured_views := configured_views st;
             stores := fun j => if Z.eqb j i
                                then Dict.set name value (stores st i)
                                else stores st j |},
          Ok tt).

Definition get_configured_views : M (list Z) :=
  fun st => Some ([], st, Ok (configured_views st)).

Definition put_configured_views (l : list Z) : M unit :=
  fun st => Some ([], {| configured_views := l; stores := stores st |}, Ok tt).

(** [x in l] on a list of ids *)
Definition list_in (x : Z) (l : list Z) : bool := existsb (Z.eqb x) l.

(** [l.remove(x)]: the first [x] goes; [None] stands for [ValueError]. *)
Fixpoint list_remove (x : Z) (l : list Z) : option (list Z) :=
  match l with
  | [] => None
  | y :: l' =>
      if Z.eqb y x then Some l'
      else match list_remove x l' with
           | Some r => Some (y :: r)
           | None => None
           end
  end.

(** ** The plugin *)

(** What [os.path.join] and [os.path.basename] raise on [None] (or on
    anything that is not a path). *)
Definition no_path_error : exn :=
  TypeError "expected str, bytes or os.PathLike object, not NoneType".

Definition no_syntax_error : exn :=
  TypeError "expected str, bytes or os.PathLike object".

(** [parent_dir(path)] for a string [path]. *)
Definition parent_dir (env : Env) (path : string) : string :=
  let parent_path :=
    PosixPath.abspath (getcwd env) (PosixPath.join path PosixPath.pardir) in
  if String.eqb parent_path path then "" else parent_path.

(** [file_settings(file)] *)
Definition file_settings (env : Env) (file : string) : M json :=
  is_file <- isfile env file ;;
  if negb is_file then ret (JDict [])
  else
    print ("SublimeUberSettings: loading settings from " ++ file) ;;;
    file_object <- open env file ;;
    try_except
      (content <- read file_object ;;
       decode env content)
      (fun exception =>
         print ("SublimeUberSettings: error loading settings from "
                ++ file ++ ": " ++ repr exception) ;;;
         ret (JDict [])).

(** The list [settings_files] built in each turn of the loop. *)
Definition settings_files (settings_dir syntax_name : string) : list string :=
  [ (settings_dir ++ "/" ++ syntax_name ++ ".sublime-settings")%string;
    (settings_dir ++ "/Preferences.sublime-settings")%string ].

(** [dir_settings.update(settings)]: only a dict has the method. *)
Definition update_method (dir_settings : json) (settings : dict) : M dict :=
  match dir_settings with
  | JDict d => ret (Dict.update d settings)
  | _ => raise (AttributeError "object has no attribute 'update'")
  end.

(** The inner [for settings_file in settings_files] loop. *)
Fixpoint for_settings_files (env : Env) (files : list string) (settings : dict)
  : M dict :=
  match files with
  | [] => ret settings
  | settings_file :: rest =>
      dir_settings <- file_settings env settings_file ;;
      merged <- update_method dir_settings settings ;;
      for_settings_files env rest merged
  end.

(** The [while True] loop of [view_settings], entered with [settings] and
    [settings_dir]; [fuel] bounds the number of turns. *)
Fixpoint walk_loop (fuel : nat) (env : Env) (syntax_name : string)
    (settings : dict) (settings_dir : string) : M dict :=
  match fuel with
  | O => out_of_fuel
  | S fuel' =>
      settings' <- for_settings_files env
                     (settings_files settings_dir syntax_name) settings ;;
      let settings_dir' := parent_dir env settings_dir in
      if String.eqb settings_dir' "" then ret settings'
      else walk_loop fuel' env syntax_name settings' settings_dir'
  end.

(** [os.path.splitext(os.path.basename(syntax_file))[0]] *)
Definition syntax_name_of (syntax_file : option json) : M string :=
  match syntax_file with
  | Some (JStr s) => ret (PosixPath.splitext_root (PosixPath.basename s))
  | _ => raise no_syntax_error
  end.

(** [parent_dir(view.file_name())]: [os.path.join] rejects [None]. *)
Definition parent_dir_of_file (env : Env) (file_name : option string) : M string :=
  match file_name with
  | Some path => ret (parent_dir env path)
  | None => raise no_path_error
  end.

(** [view_settings(view)] *)
Definition view_settings (fuel : nat) (env : Env) (view : View.t) : M dict :=
  syntax_file <- settings_get view "syntax" ;;
  syntax_name <- syntax_name_of syntax_file ;;
  settings_dir <- parent_dir_of_file env (View.file_name view) ;;
  walk_loop fuel env syntax_name [] settings_dir.

(** [for name, value in items: view.settings().set(name, value)] *)
Fixpoint for_items (view : View.t) (items : list (string * json)) : M unit :=
  match items with
  | [] => ret tt
  | (name, value) :: rest =>
      settings_set view name value ;;;
      for_items view rest
  end.

(** [apply_settings(view)] *)
Definition apply_settings (fuel : nat) (env : Env) (view : View.t) : M unit :=
  registry <- get_configured_views ;;
  if list_in (View.id view) registry then ret tt
  else
    resolved <- view_settings fuel env view ;;
    for_items view (Dict.items resolved) ;;;
    registry' <- get_configured_views ;;
    put_configured_views (registry' ++ [View.id view]).

(** [plugin_loaded()]: [windows] is what [sublime.windows()] and
    [window.views()] enumerate. *)
Fixpoint for_views (fuel : nat) (env : Env) (views : list View.t) : M unit :=
  match views with
  | [] => ret tt
  | view :: rest => apply_settings fuel env view ;;; for_views fuel env rest
  end.

Fixpoint plugin_loaded (fuel : nat) (env : Env) (windows : list (list View.t))
  : M unit :=
  match windows with
  | [] => ret tt
  | views :: rest => for_views fuel env views ;;; plugin_loaded fuel env rest
  end.

(** [SublimeUberSettingsListener] *)
Definition on_load (fuel : nat) (env : Env) (view : View.t) : M unit :=
  apply_settings fuel env view.

Definition on_post_save (fuel : nat) (env : Env) (view : View.t) : M unit :=
  apply_settings fuel env view.

Definition on_close (view : View.t) : M unit :=
  try_except
    (registry <- get_configured_views ;;
     match list_remove (View.id view) registry with
     | Some registry' => put_configured_views registry'
     | None => raise (ValueError "list.remove(x): x not in list")
     end)
    (fun exception =>
       match exception with
       | ValueError _ => ret tt
       | _ => raise exception
       end).

(** ** Definitions used in the statements

    Normalised paths, the directories of the walk, what a file
    contributes, and the observable parts of a trace. *)

(** Does [s] contain a slash? *)
Fixpoint has_sep (s : string) : bool :=
  match s with
  | EmptyString => false
  | String c s' => Ascii.eqb c Str.sep || has_sep s'
  end.

(** A component that [normpath] keeps in an absolute path. *)
Definition plain (c : string) : Prop :=
  has_sep c = false /\ c <> "" /\ c <> "." /\ c <> "..".

(** The shape of a normalised absolute path. *)
Definition render (initial : nat) (comps : list string) : string :=
  (Str.repeat_sep initial ++ Str.join comps)%string.

(** The directories the loop of [view_settings] visits from [settings_dir]
    on: the successive values of [settings_dir]. *)
Fixpoint ancestors (fuel : nat) (env : Env) (settings_dir : string)
  : option (list string) :=
  match fuel with
  | O => None
  | S fuel' =>
      let settings_dir' := parent_dir env settings_dir in
      if String.eqb settings_dir' "" then Some [settings_dir]
      else match ancestors fuel' env settings_dir' with
           | Some dirs => Some (settings_dir :: dirs)
           | None => None
           end
  end.

(** Keys are unique, as in every Python dict. *)
Definition wf_dict (d : dict) : Prop := NoDup (map fst d).

(** The value [file_settings] hands back for a file. *)
Definition loaded (env : Env) (file : string) : outcome json :=
  match file_at env file with
  | NotAFile => Ok (JDict [])
  | OpenFails e => Raise e
  | ReadFails _ => Ok (JDict [])
  | Text content =>
      match decode_value env content with
      | Ok v => Ok v
      | Raise _ => Ok (JDict [])
      end
  end.

(** The two lines [file_settings] prints. *)
Definition loading_line (file : string) : string :=
  "SublimeUberSettings: loading settings from " ++ file.

Definition error_line (file : string) (e : exn) : string :=
  "SublimeUberSettings: error loading settings from " ++ file ++ ": " ++ repr e.

(** The effects of [file_settings] on a file. *)
Definition file_trace (env : Env) (file : string) : list event :=
  IsFile file ::
  match file_at env file with
  | NotAFile => []
  | OpenFails _ => [Stdout (loading_line file); OpenFile file]
  | ReadFails e => [Stdout (loading_line file); OpenFile file; Stdout (error_line file e)]
  | Text content =>
      Stdout (loading_line file) :: OpenFile file ::
      match decode_value env content with
      | Ok _ => []
      | Raise e => [Stdout (error_line file e)]
      end
  end.

(** The settings a file contributes to the merge. *)
Definition layer_of (env : Env) (file : string) : dict :=
  match loaded env file with
  | Ok (JDict d) => d
  | _ => []
  end.

(** [file_settings] hands back a dictionary for the file: the file is
    missing, or reading or decoding it fails, or it holds an object. *)
Definition gives_dict (env : Env) (file : string) : Prop :=
  exists d, loaded env file = Ok (JDict d).

(** Nearest layer first: the value of a key is that of the first layer
    that has it. *)
Fixpoint closer_wins (layers : list dict) (k : string) : option json :=
  match layers with
  | [] => None
  | layer :: farther =>
      match Dict.get k layer with
      | Some v => Some v
      | None => closer_wins farther k
      end
  end.

(** The layers of a list of directories, in the order the loop reads
    them. *)
Definition layers (env : Env) (syntax_name : string) (dirs : list string)
  : list dict :=
  flat_map (fun d => map (layer_of env) (settings_files d syntax_name)) dirs.

(** Paths given to [os.path.isfile], paths opened, settings written and
    lines printed, in order. *)
Definition probes (tr : list event) : list string :=
  flat_map (fun ev => match ev with IsFile p => [p] | _ => [] end) tr.

Definition opened (tr : list event) : list string :=
  flat_map (fun ev => match ev with OpenFile p => [p] | _ => [] end) tr.

Definition writes (tr : list event) : list (Z * string * json) :=
  flat_map (fun ev => match ev with SettingsSet i k v => [(i, k, v)] | _ => [] end) tr.

Definition prints (tr : list event) : list string :=
  flat_map (fun ev => match ev with Stdout l => [l] | _ => [] end) tr.

(** What the plugin may expect of its host: [os.getcwd()] is absolute,
    and a decoded object has each key once. *)
Record host_ok (env : Env) : Prop := {
  cwd_absolute : PosixPath.isabs (getcwd env) = true;
  decoded_dicts : forall content d,
    decode_value env content = Ok (JDict d) -> wf_dict d
}.

(** The [set] calls that write [items] to the view [i]. *)
Definition set_events (i : Z) (items : list (string * json)) : list event :=
  map (fun kv => SettingsSet i (fst kv) (snd kv)) items.

(** ** The plugin's life: hooks called by the editor *)

Inductive hook : Type :=
| PluginLoaded (windows : list (list View.t))
| OnLoad (view : View.t)
| OnPostSave (view : View.t)
| OnClose (view : View.t).

Definition run_hook (fuel : nat) (env : Env) (h : hook) : M unit :=
  match h with
  | PluginLoaded windows => plugin_loaded fuel env windows
  | OnLoad view => on_load fuel env view
  | OnPostSave view => on_post_save fuel env view
  | OnClose view => on_close view
  end.

(** States the plugin can be in: [configured_views] starts empty, hooks
    run one after the other (to completion or to an exception), and the
    editor or the user may change view settings in between. *)
Inductive reachable (env : Env) : State -> Prop :=
| reachable_start stores0 :
    reachable env {| configured_views := []; stores := stores0 |}
| reachable_hook st fuel h tr st' r :
    reachable env st -> run_hook fuel env h st = Some (tr, st', r) ->
    reachable env st'
| reachable_edit st stores' :
    reachable env st ->
    reachable env {| configured_views := configured_views st; stores := stores' |}.

(** A computation keeps a property of the state, however it ends. *)
Definition preserves {A} (P : State -> Prop) (m : M A) : Prop :=
  forall st tr st' r, P st -> m st = Some (tr, st', r) -> P st'.

(** No id twice in [configured_views]. *)
Definition registry_ok (st : State) : Prop := NoDup (configured_views st).

(** ** Concrete hosts for the examples *)

(** A POSIX file system reads a run of slashes as one. *)
Fixpoint squeeze (s : string) : string :=
  match s with
  | String a s' =>
      match s' with
      | String b _ =>
          if (Ascii.eqb a Str.sep && Ascii.eqb b Str.sep)%bool then squeeze s'
          else String a (squeeze s')
      | EmptyString => s
      end
  | EmptyString => s
  end.

(** First entry of a table under a key. *)
Fixpoint lookup {A} (k : string) (table : list (string * A)) : option A :=
  match table with
  | [] => None
  | (k', a) :: rest => if String.eqb k k' then Some a else lookup k rest
  end.

(** The file system holding exactly the files of [table]. *)
Definition fs_of (table : list (string * file_state)) (path : string) : file_state :=
  match lookup (squeeze path) table with
  | Some f => f
  | None => NotAFile
  end.

(** A decoder that knows the texts of [table] and rejects the rest. *)
Definition decoder_of (table : list (string * json)) (content : string)
  : outcome json :=
  match lookup content table with
  | Some v => Ok v
  | None => Raise (ValueError "Unexpected character")
  end.

Definition python_syntax : dict :=
  [("syntax", JStr "Packages/Python/Python.sublime-syntax")].

Definition fresh_state : State :=
  {| configured_views := []; stores := fun _ => python_syntax |}.

(** D0 = /proj/src (nearest), D1 = /proj, D2 = / (root). *)
Definition precedence_host : Env := {|
  getcwd := "/home/user";
  file_at := fs_of
    [ ("/proj/src/Preferences.sublime-settings", Text "D0");
      ("/proj/Preferences.sublime-settings", Text "D1");
      ("/Preferences.sublime-settings", Text "D2") ];
  decode_value := decoder_of
    [ ("D0", JDict [("a", JNum 1)]);
      ("D1", JDict [("a", JNum 2); ("b", JNum 2)]);
      ("D2", JDict [("b", JNum 3); ("c", JNum 3)]) ]
|}.

Definition main_py : View.t :=
  {| View.id := 1; View.file_name := Some "/proj/src/main.py" |}.

(** One directory with a syntax-specific and a generic file. *)
Definition overlay_host : Env := {|
  getcwd := "/home/user";
  file_at := fs_of
    [ ("/proj/Python.sublime-settings", Text "syntax");
      ("/proj/Preferences.sublime-settings", Text "generic") ];
  decode_value := decoder_of
    [ ("syntax", JDict [("tab_size", JNum 4)]);
      ("generic", JDict [("tab_size", JNum 2); ("font_size", JNum 10)]) ]
|}.

(** A settings file the user may not read, below a readable one. *)
Definition locked_host : Env := {|
  getcwd := "/home/user";
  file_at := fs_of
    [ ("/proj/Preferences.sublime-settings", OpenFails (OSError "Permission denied"));
      ("/Preferences.sublime-settings", Text "D2") ];
  decode_value := decoder_of [ ("D2", JDict [("b", JNum 3); ("c", JNum 3)]) ]
|}.

(** A settings file that holds a list instead of an object. *)
Definition array_host : Env := {|
  getcwd := "/home/user";
  file_at := fs_of
    [ ("/proj/Preferences.sublime-settings", Text "array");
      ("/Preferences.sublime-settings", Text "D2") ];
  decode_value := decoder_of
    [ ("array", JList []); ("D2", JDict [("b", JNum 3); ("c", JNum 3)]) ]
|}.

Definition proj_py : View.t :=
  {| View.id := 2; View.file_name := Some "/proj/a.py" |}.

Definition unsaved_view : View.t := {| View.id := 3; View.file_name := None |}.

Definition empty_path_view : View.t := {| View.id := 4; View.file_name := Some "" |}.

Definition root_view : View.t := {| View.id := 5; View.file_name := Some "/" |}.


(** ** Definitions for further properties *)


(** Does the character occur in the string? *)
Definition occurs (c : ascii) (s : string) : bool :=
  existsb (Ascii.eqb c) (list_ascii_of_string s).

(** A settings file that cannot be decoded and one that cannot be read,
    below a good one. *)
Definition corrupt_host : Env := {|
  getcwd := "/home/user";
  file_at := fs_of
    [ ("/proj/src/Preferences.sublime-settings", Text "{ not json");
      ("/proj/Preferences.sublime-settings",
       ReadFails (UnicodeDecodeError "invalid start byte"));
      ("/Preferences.sublime-settings", Text "D2") ];
  decode_value := decoder_of [ ("D2", JDict [("b", JNum 3); ("c", JNum 3)]) ]
|}.

(** ** The command that creates a settings file *)

(** What the command asks of its host besides [Env]:
    [sublime.packages_path()], [os.path.exists], whether
    [open(path, "w")] raises, the truth value of a view object and
    [json.dumps(value, indent=4)]. *)
Record CommandHost : Type := {
  packages_path : string;
  path_exists : string -> bool;
  open_for_writing : string -> option exn;
  view_bool : View.t -> bool;
  dumps_indent4 : json -> string
}.

(** What the user sees of a run. *)
Inductive ui_event : Type :=
| ErrorMessage (text : string)
| MessageDialog (text : string)
| WindowOpenFile (path : string).

(** [str(exception)] *)
Definition str_exn (e : exn) : string :=
  match e with
  | TypeError m | AttributeError m | ValueError m | OSError m
  | UnicodeDecodeError m => m
  end.

(** The file system after [path] was written with [content]. *)
Definition write_file (env : Env) (path content : string) : Env :=
  {| getcwd := getcwd env;
     file_at := fun p => if String.eqb p path then Text content else file_at env p;
     decode_value := decode_value env |}.

(** The host once [path] exists. *)
Definition created (host : CommandHost) (path : string) : CommandHost :=
  {| packages_path := packages_path host;
     path_exists := fun p => (String.eqb p path || path_exists host p)%bool;
     open_for_writing := open_for_writing host;
     view_bool := view_bool host;
     dumps_indent4 := dumps_indent4 host |}.

(** [open(path, "r", encoding="utf-8")]: an exception, or the file object
    with what its [read] will give. *)
Definition open_for_reading (env : Env) (path : string) : outcome (outcome string) :=
  match file_at env path with
  | NotAFile => Raise (OSError "No such file or directory")
  | OpenFails e => Raise e
  | ReadFails e => Ok (Raise e)
  | Text content => Ok (Ok content)
  end.

Definition newline : string := String "010"%char "".

Module CreateUberSettingsCommand.

Definition default_settings : dict :=
  [ ("font_size", JNum 12);
    ("tab_size", JNum 4);
    ("translate_tabs_to_spaces", JBool true) ].

(** The text of the default file: the two [f.write] calls. *)
Definition default_text (host : CommandHost) : string :=
  ("// Default settings copied by SublimeUberSettings" ++ newline)
  ++ dumps_indent4 host (JDict default_settings).

(** [run(self)], where [active_view] is [self.window.active_view()]: the
    dialogs shown and the files opened in the window, and the host and
    file system afterwards. *)
Definition run (host : CommandHost) (env : Env) (active_view : option View.t)
  : list ui_event * (CommandHost * Env) :=
  let no_file := ([ErrorMessage "No file is currently open!"], (host, env)) in
  match active_view with
  | None => no_file
  | Some view =>
      if negb (view_bool host view) then no_file
      else
        match View.file_name view with
        | None => no_file
        | Some file_name =>
            if String.eqb file_name "" then no_file
            else
              let project_dir := parent_dir env file_name in
              if String.eqb project_dir "" then
                ([ErrorMessage "Could not determine project directory!"], (host, env))
              else
                let settings_file :=
                  PosixPath.join project_dir "Preferences.sublime-settings" in
                if path_exists host settings_file then
                  ([MessageDialog ("Settings file already exists at: " ++ settings_file)],
                   (host, env))
                else
                  let user_settings_path :=
                    PosixPath.join (PosixPath.join (packages_path host) "User")
                      "Preferences.sublime-settings" in
                  if path_exists host user_settings_path then
                    match open_for_reading env user_settings_path with
                    | Raise e =>
                        ([ErrorMessage ("Error copying settings file: " ++ str_exn e)],
                         (host, env))
                    | Ok source =>
                        match open_for_writing host settings_file with
                        | Some e =>
                            ([ErrorMessage ("Error copying settings file: " ++ str_exn e)],
                             (host, env))
                        | None =>
                            (* the target exists and is empty from here on *)
                            let host' := created host settings_file in
                            match source with
                            | Raise e =>
                                ([ErrorMessage
                                    ("Error copying settings file: " ++ str_exn e)],
                                 (host', write_file env settings_file ""))
                            | Ok content =>
                                ([MessageDialog
                                    ("Created settings file at: " ++ settings_file);
                                  WindowOpenFile settings_file],
                                 (host', write_file env settings_file content))
                            end
                        end
                    end
                  else
                    match open_for_writing host settings_file with
                    | Some e =>
                        ([ErrorMessage ("Error creating settings file: " ++ str_exn e)],
                         (host, env))
                    | None =>
                        ([MessageDialog
                            ("Created default settings file at: " ++ settings_file);
                          WindowOpenFile settings_file],
                         (created host settings_file,
                          write_file env settings_file (default_text host)))
                    end
        end
  end.

End CreateUberSettingsCommand.

(** A user with global preferences and a project without a settings
    file. *)
Definition user_prefs_host : CommandHost := {|
  packages_path := "/home/user/.config/sublime-text/Packages";
  path_exists := fun p =>
    String.eqb p "/home/user/.config/sublime-text/Packages/User/Preferences.sublime-settings";
  open_for_writing := fun _ => None;
  view_bool := fun _ => true;
  dumps_indent4 := fun _ => "{}"
|}.

Definition user_prefs_env : Env := {|
  getcwd := "/home/user";
  file_at := fs_of
    [ ("/home/user/.config/sublime-text/Packages/User/Preferences.sublime-settings",
       Text "user prefs") ];
  decode_value := decoder_of [ ("user prefs", JDict [("font_size", JNum 14)]) ]
|}.

(** The path of the file the command creates, and of the user's
    preferences it copies. *)
Definition settings_file_of (env : Env) (file_name : string) : string :=
  PosixPath.join (parent_dir env file_name) "Preferences.sublime-settings".

Definition user_settings_path (host : CommandHost) : string :=
  PosixPath.join (PosixPath.join (packages_path host) "User")
    "Preferences.sublime-settings".

(** Every way [run] can end. *)
Inductive run_outcome (host : CommandHost) (env : Env) (active_view : option View.t)
  : list ui_event -> CommandHost -> Env -> Prop :=
| run_no_file :
    (active_view = None \/
     exists view, active_view = Some view /\
       (view_bool host view = false \/ View.file_name view = None \/
        View.file_name view = Some "")) ->
    run_outcome host env active_view
      [ErrorMessage "No file is currently open!"] host env
| run_no_directory view file_name :
    active_view = Some view -> view_bool host view = true ->
    View.file_name view = Some file_name -> file_name <> "" ->
    parent_dir env file_name = "" ->
    run_outcome host env active_view
      [ErrorMessage "Could not determine project directory!"] host env
| run_exists view file_name :
    active_view = Some view -> view_bool host view = true ->
    View.file_name view = Some file_name -> file_name <> "" ->
    parent_dir env file_name <> "" ->
    path_exists host (settings_file_of env file_name) = true ->
    run_outcome host env active_view
      [MessageDialog ("Settings file already exists at: "
                      ++ settings_file_of env file_name)] host env
| run_failed view file_name e :
    active_view = Some view -> view_bool host view = true ->
    View.file_name view = Some file_name -> file_name <> "" ->
    parent_dir env file_name <> "" ->
    path_exists host (settings_file_of env file_name) = false ->
    (path_exists host (user_settings_path host) = true /\
     (open_for_reading env (user_settings_path host) = Raise e \/
      (exists source, open_for_reading env (user_settings_path host) = Ok source) /\
      open_for_writing host (settings_file_of env file_name) = Some e)) \/
    (path_exists host (user_settings_path host) = false /\
     open_for_writing host (settings_file_of env file_name) = Some e) ->
    run_outcome host env active_view
      [ErrorMessage ((if path_exists host (user_settings_path host)
                      then "Error copying settings file: "
                      else "Error creating settings file: ") ++ str_exn e)]
      host env
| run_left_empty view file_name e :
    active_view = Some view -> view_bool host view = true ->
    View.file_name view = Some file_name -> file_name <> "" ->
    parent_dir env file_name <> "" ->
    path_exists host (settings_file_of env file_name) = false ->
    path_exists host (user_settings_path host) = true ->
    open_for_reading env (user_settings_path host) = Ok (Raise e) ->
    open_for_writing host (settings_file_of env file_name) = None ->
    run_outcome host env active_view
      [ErrorMessage ("Error copying settings file: " ++ str_exn e)]
      (created host (settings_file_of env file_name))
      (write_file env (settings_file_of env file_name) "")
| run_copied view file_name content :
    active_view = Some view -> view_bool host view = true ->
    View.file_name view = Some file_name -> file_name <> "" ->
    parent_dir env file_name <> "" ->
    path_exists host (settings_file_of env file_name) = false ->
    path_exists host (user_settings_path host) = true ->
    open_for_reading env (user_settings_path host) = Ok (Ok content) ->
    open_for_writing host (settings_file_of env file_name) = None ->
    run_outcome host env active_view
      [MessageDialog ("Created settings file at: " ++ settings_file_of env file_name);
       WindowOpenFile (settings_file_of env file_name)]
      (created host (settings_file_of env file_name))
      (write_file env (settings_file_of env file_name) content)
| run_default view file_name :
    active_view = Some view -> view_bool host view = true ->
    View.file_name view = Some file_name -> file_name <> "" ->
    parent_dir env file_name <> "" ->
    path_exists host (settings_file_of env file_name) = false ->
    path_exists host (user_settings_path host) = false ->
    open_for_writing host (settings_file_of env file_name) = None ->
    run_outcome host env active_view
      [MessageDialog ("Created default settings file at: "
                      ++ settings_file_of env file_name);
       WindowOpenFile (settings_file_of env file_name)]
      (created host (settings_file_of env file_name))
      (write_file env (settings_file_of env file_name)
         (CreateUberSettingsCommand.default_text host)).

(** The user's preferences cannot be decoded as UTF-8. *)
Definition broken_prefs_env : Env := {|
  getcwd := "/home/user";
  file_at := fs_of
    [ ("/home/user/.config/sublime-text/Packages/User/Preferences.sublime-settings",
       ReadFails (UnicodeDecodeError "invalid start byte")) ];
  decode_value := decoder_of []
|}.

(** * Properties *)

Example normpath_ex1 : PosixPath.normpath "/a/b/.." = "/a". Proof. reflexivity. Qed.
Example normpath_ex2 : PosixPath.normpath "//a/./b//c/../.." = "//a". Proof. reflexivity. Qed.
Example normpath_ex3 : PosixPath.normpath "///a/../.." = "/". Proof. reflexivity. Qed.
Example normpath_ex4 : PosixPath.normpath "a/../.." = "..". Proof. reflexivity. Qed.
Example basename_ex : PosixPath.basename "Packages/Python/Python.sublime-syntax" = "Python.sublime-syntax". Proof. reflexivity. Qed.
Example splitext_ex1 : PosixPath.splitext_root "Python.sublime-syntax" = "Python". Proof. reflexivity. Qed.
Example splitext_ex2 : PosixPath.splitext_root ".bashrc" = ".bashrc". Proof. reflexivity. Qed.
Example splitext_ex3 : PosixPath.splitext_root "a.b/c" = "a.b/c". Proof. reflexivity. Qed.
Example splitext_ex4 : PosixPath.splitext_root "x/..a.tar.gz" = "x/..a.tar". Proof. reflexivity. Qed.

Lemma split_nonempty s : Str.split s <> [].
Proof.
  destruct s as [|c s]; simpl; [discriminate|].
  destruct (Ascii.eqb c Str.sep); [discriminate|].
  destruct (Str.split s); discriminate.
Qed.

Lemma split_no_sep c : has_sep c = false -> Str.split c = [c].
Proof.
  induction c as [|a c IH]; simpl; intros H; [reflexivity|].
  apply orb_false_iff in H as [Ha Hc].
  rewrite Ha, (IH Hc). reflexivity.
Qed.

Lemma split_parts s : Forall (fun c => has_sep c = false) (Str.split s).
Proof.
  induction s as [|a s IH]; simpl.
  - repeat constructor.
  - destruct (Ascii.eqb a Str.sep) eqn:Ha.
    + constructor; [reflexivity | exact IH].
    + destruct (Str.split s) as [|w ws]; [repeat constructor; simpl; now rewrite Ha|].
      inversion IH; subst. constructor; [simpl; now rewrite Ha | assumption].
Qed.

Lemma split_app_sep x y :
  Str.split (x ++ String Str.sep y) = Str.split x ++ Str.split y.
Proof.
  induction x as [|a x IH]; simpl.
  - reflexivity.
  - destruct (Ascii.eqb a Str.sep); rewrite IH.
    + reflexivity.
    + pose proof (split_nonempty x) as Hx.
      destruct (Str.split x) as [|w ws]; [congruence | reflexivity].
Qed.

Lemma split_join comps :
  comps <> [] -> Forall (fun c => has_sep c = false) comps ->
  Str.split (Str.join comps) = comps.
Proof.
  induction comps as [|c [|d l] IH]; intros Hne Hall.
  - congruence.
  - simpl. inversion Hall; subst. now apply split_no_sep.
  - change (Str.join (c :: d :: l)) with (c ++ String Str.sep (Str.join (d :: l)))%string.
    rewrite split_app_sep. inversion Hall; subst.
    rewrite IH by (auto; discriminate). now rewrite split_no_sep.
Qed.

(** *** The component loop of [normpath] on an absolute path *)

Lemma plain_first c : plain c -> exists a t, c = String a t /\ Ascii.eqb a Str.sep = false.
Proof.
  intros (Hs & Hne & _). destruct c as [|a t]; [congruence|].
  simpl in Hs. apply orb_false_iff in Hs as [Ha _]. eauto.
Qed.

Lemma norm_step_plain initial acc c :
  plain c -> PosixPath.norm_step initial acc c = acc ++ [c].
Proof.
  intros (_ & H1 & H2 & H3). unfold PosixPath.norm_step.
  apply String.eqb_neq in H1, H2, H3. now rewrite H1, H2, H3.
Qed.

Lemma fold_norm_step_plain initial comps : forall acc,
  Forall plain comps ->
  fold_left (PosixPath.norm_step initial) comps acc = acc ++ comps.
Proof.
  induction comps as [|c comps IH]; intros acc Hall; simpl.
  - now rewrite app_nil_r.
  - inversion Hall; subst. rewrite norm_step_plain by assumption.
    rewrite IH by assumption. now rewrite <- app_assoc.
Qed.

Lemma last_plain acc : acc <> [] -> Forall plain acc -> plain (last acc "").
Proof.
  intros Hne Hall. rewrite Forall_forall in Hall. apply Hall.
  destruct acc as [|x l]; [congruence|].
  rewrite (app_removelast_last "" (l := x :: l)) at 2 by discriminate.
  apply in_or_app. right. now left.
Qed.

Lemma norm_step_pardir initial acc :
  initial <> 0 -> Forall plain acc ->
  PosixPath.norm_step initial acc ".." = removelast acc.
Proof.
  intros Hi Hall. unfold PosixPath.norm_step. simpl.
  apply Nat.eqb_neq in Hi. rewrite Hi. simpl.
  destruct acc as [|x l]; [reflexivity|].
  pose proof (last_plain (x :: l) ltac:(discriminate) Hall) as (_ & _ & _ & H3).
  apply String.eqb_neq in H3. now rewrite H3.
Qed.

Lemma Forall_removelast {A} (P : A -> Prop) l : Forall P l -> Forall P (removelast l).
Proof.
  induction l as [|x [|y l] IH]; intros H; simpl; auto.
  inversion H; subst. constructor; auto.
Qed.

Lemma norm_step_keeps_plain initial acc c :
  initial <> 0 -> has_sep c = false -> Forall plain acc ->
  Forall plain (PosixPath.norm_step initial acc c).
Proof.
  intros Hi Hc Hall.
  destruct (String.eqb c "") eqn:E1; [unfold PosixPath.norm_step; now rewrite E1|].
  destruct (String.eqb c ".") eqn:E2;
    [unfold PosixPath.norm_step; rewrite E2, orb_true_r; assumption|].
  destruct (String.eqb c "..") eqn:E3.
  - apply String.eqb_eq in E3; subst c. rewrite norm_step_pardir by assumption.
    now apply Forall_removelast.
  - apply String.eqb_neq in E1, E2, E3.
    assert (plain c) by (repeat split; assumption).
    rewrite norm_step_plain by assumption.
    apply Forall_app. split; [assumption | now repeat constructor].
Qed.

Lemma fold_norm_step_keeps_plain initial comps : forall acc,
  initial <> 0 -> Forall (fun c => has_sep c = false) comps -> Forall plain acc ->
  Forall plain (fold_left (PosixPath.norm_step initial) comps acc).
Proof.
  induction comps as [|c comps IH]; intros acc Hi Hc Hall; simpl; [assumption|].
  inversion Hc; subst. apply IH; auto. now apply norm_step_keeps_plain.
Qed.

Lemma initial_slashes_abs p :
  PosixPath.isabs p = true ->
  PosixPath.initial_slashes p = 1 \/ PosixPath.initial_slashes p = 2.
Proof.
  unfold PosixPath.isabs, PosixPath.initial_slashes. intros ->.
  destruct (_ && _); auto.
Qed.

Lemma render_not_empty initial comps : initial <> 0 -> render initial comps <> "".
Proof. destruct initial; [congruence | discriminate]. Qed.

(** [normpath] of an absolute path is one or two slashes followed by
    plain components. *)
Lemma normpath_abs p :
  PosixPath.isabs p = true ->
  exists initial comps,
    (initial = 1 \/ initial = 2) /\ Forall plain comps /\
    PosixPath.normpath p = render initial comps.
Proof.
  intros Habs. pose proof (initial_slashes_abs p Habs) as Hi.
  exists (PosixPath.initial_slashes p),
         (fold_left (PosixPath.norm_step (PosixPath.initial_slashes p)) (Str.split p) []).
  split; [assumption|]. split.
  - apply fold_norm_step_keeps_plain; [lia | apply split_parts | constructor].
  - unfold PosixPath.normpath.
    destruct p as [|a p]; [discriminate|]. cbv zeta.
    change (String.eqb (String a p) "") with false. cbv iota.
    fold (render (PosixPath.initial_slashes (String a p))
            (fold_left (PosixPath.norm_step (PosixPath.initial_slashes (String a p)))
               (Str.split (String a p)) [])).
    pose proof (render_not_empty (PosixPath.initial_slashes (String a p))
      (fold_left (PosixPath.norm_step (PosixPath.initial_slashes (String a p)))
               (Str.split (String a p)) []) ltac:(lia)) as Hne.
    apply String.eqb_neq in Hne. now rewrite Hne.
Qed.

(** *** [parent_dir] on a normalised absolute path *)

Lemma join_first c l :
  plain c -> exists a t, Str.join (c :: l) = String a t /\ Ascii.eqb a Str.sep = false.
Proof.
  intros Hc. destruct (plain_first c Hc) as (a & t & -> & Ha).
  destruct l as [|d l]; simpl; eauto.
Qed.

Lemma endswith_sep_app x a t :
  Str.endswith_sep (x ++ String a t) = Str.endswith_sep (String a t).
Proof.
  induction x as [|b x IH]; [reflexivity|].
  change ((String b x ++ String a t)%string) with (String b (x ++ String a t)).
  rewrite <- IH. destruct x; reflexivity.
Qed.

Lemma endswith_sep_no_sep c : has_sep c = false -> Str.endswith_sep c = false.
Proof.
  induction c as [|a c IH]; [reflexivity|]. simpl. intros H.
  apply orb_false_iff in H as [Ha Hc]. destruct c; [assumption | auto].
Qed.

Lemma endswith_sep_join comps :
  Forall plain comps -> Str.endswith_sep (Str.join comps) = false.
Proof.
  induction comps as [|c [|d l] IH]; intros Hall.
  - reflexivity.
  - inversion Hall as [|? ? (Hs & _) _]; subst. now apply endswith_sep_no_sep.
  - inversion Hall as [|? ? _ Hrest]; subst.
    change (Str.join (c :: d :: l)) with (c ++ String Str.sep (Str.join (d :: l)))%string.
    rewrite endswith_sep_app.
    inversion Hrest; subst.
    destruct (join_first d l ltac:(assumption)) as (a & t & E & _).
    specialize (IH Hrest). rewrite E in *. exact IH.
Qed.

Lemma endswith_sep_render initial c l :
  Forall plain (c :: l) -> Str.endswith_sep (render initial (c :: l)) = false.
Proof.
  intros Hall. unfold render.
  inversion Hall; subst.
  destruct (join_first c l ltac:(assumption)) as (a & t & E & _).
  pose proof (endswith_sep_join _ Hall) as H.
  rewrite E in *. now rewrite endswith_sep_app.
Qed.

Lemma split_render initial c l :
  Forall plain (c :: l) ->
  Str.split (render initial (c :: l)) = repeat "" initial ++ c :: l.
Proof.
  intros Hall. unfold render.
  assert (Hs : Str.split (Str.join (c :: l)) = c :: l).
  { apply split_join; [discriminate|].
    eapply Forall_impl; [|exact Hall]. now intros ? (? & _). }
  induction initial as [|n IH]; [exact Hs|].
  change (Str.split (String Str.sep (Str.repeat_sep n ++ Str.join (c :: l)))
          = "" :: (repeat "" n ++ c :: l)).
  rewrite <- IH. reflexivity.
Qed.

Lemma fold_norm_step_empties initial n rest acc :
  fold_left (PosixPath.norm_step initial) (repeat "" n ++ rest) acc
  = fold_left (PosixPath.norm_step initial) rest acc.
Proof. induction n; simpl; auto. Qed.

Lemma initial_slashes_render initial c l s :
  (initial = 1 \/ initial = 2) -> plain c ->
  PosixPath.initial_slashes (render initial (c :: l) ++ s) = initial.
Proof.
  intros Hi Hc. destruct (join_first c l Hc) as (a & t & E & Ha).
  unfold render. rewrite E. rewrite Ascii.eqb_sym in Ha.
  destruct Hi as [-> | ->]; unfold PosixPath.initial_slashes;
    cbn [Str.startswith append Str.repeat_sep];
    change "/"%char with Str.sep; rewrite Ha, Ascii.eqb_refl; reflexivity.
Qed.

Lemma abspath_parent_render cwd initial c l :
  (initial = 1 \/ initial = 2) -> Forall plain (c :: l) ->
  PosixPath.abspath cwd (PosixPath.join (render initial (c :: l)) PosixPath.pardir)
  = render initial (removelast (c :: l)).
Proof.
  intros Hi Hall. set (p := render initial (c :: l)).
  assert (Hne : p <> "") by (apply render_not_empty; lia).
  assert (Hj : PosixPath.join p PosixPath.pardir = (p ++ String Str.sep "..")%string).
  { unfold PosixPath.join. simpl Str.startswith. cbv iota.
    apply String.eqb_neq in Hne. rewrite Hne.
    unfold p. now rewrite endswith_sep_render. }
  rewrite Hj. unfold PosixPath.abspath.
  assert (Habs : PosixPath.isabs (p ++ String Str.sep "..") = true).
  { unfold p, render. destruct Hi as [-> | ->]; reflexivity. }
  rewrite Habs. unfold PosixPath.normpath.
  assert (E0 : String.eqb (p ++ String Str.sep "..") "" = false).
  { apply String.eqb_neq. intros E. destruct p; discriminate. }
  rewrite E0. cbv zeta.
  inversion Hall as [|? ? Hc Hl]; subst.
  subst p. rewrite !(initial_slashes_render initial c l _ Hi Hc).
  rewrite split_app_sep. rewrite (split_render initial c l Hall).
  rewrite <- app_assoc, fold_norm_step_empties.
  rewrite fold_left_app, (fold_norm_step_plain initial (c :: l) [] Hall).
  simpl app. simpl fold_left. rewrite norm_step_pardir by (auto; lia).
  fold (render initial (removelast (c :: l))).
  pose proof (render_not_empty initial (removelast (c :: l)) ltac:(lia)) as Hr.
  apply String.eqb_neq in Hr. now rewrite Hr.
Qed.

Lemma length_removelast_cons {A} (x : A) l : length (removelast (x :: l)) = length l.
Proof.
  revert x. induction l as [|y l IH]; intros x; [reflexivity|].
  change (removelast (x :: y :: l)) with (x :: removelast (y :: l)).
  change (S (length (removelast (y :: l))) = S (length l)). now rewrite IH.
Qed.

Lemma render_removelast_neq initial c l :
  Forall plain (c :: l) ->
  render initial (removelast (c :: l)) <> render initial (c :: l).
Proof.
  intros Hall E. apply (f_equal Str.split) in E.
  rewrite (split_render initial c l Hall) in E.
  destruct (removelast (c :: l)) as [|c' l'] eqn:Er.
  - (* a single component *)
    destruct l; [|simpl in Er; destruct l; discriminate].
    unfold render in E. simpl Str.join in E.
    assert (Hsp : forall n, Str.split (Str.repeat_sep n ++ "") = repeat "" n ++ [""]).
    { induction n as [|n IH]; simpl; [reflexivity | now rewrite IH]. }
    rewrite Hsp in E. apply app_inv_head in E. inversion E; subst.
    inversion Hall as [|? ? (_ & Hne & _) _]. congruence.
  - assert (Hall' : Forall plain (c' :: l')).
    { rewrite <- Er. now apply Forall_removelast. }
    rewrite (split_render initial c' l' Hall') in E.
    apply app_inv_head in E. rewrite <- Er in E.
    apply (f_equal (@length _)) in E.
    rewrite length_removelast_cons in E. simpl in E. lia.
Qed.

Lemma isabs_join cwd x :
  PosixPath.isabs cwd = true -> PosixPath.isabs (PosixPath.join cwd x) = true.
Proof.
  unfold PosixPath.isabs, PosixPath.join. intros Hc.
  destruct (Str.startswith "/" x) eqn:Hx; [assumption|].
  destruct cwd as [|a cwd]; [discriminate|].
  destruct (_ || _); exact Hc.
Qed.

Section AncestorWalk.

Variable env : Env.

(** The parent of a normalised absolute path with components drops the
    last one; the parent of a root is the empty string. *)
Lemma parent_dir_render initial c l :
  (initial = 1 \/ initial = 2) -> Forall plain (c :: l) ->
  parent_dir env (render initial (c :: l)) = render initial (removelast (c :: l)).
Proof.
  intros Hi Hall. unfold parent_dir.
  rewrite abspath_parent_render by assumption.
  pose proof (render_removelast_neq initial c l Hall) as Hne.
  apply String.eqb_neq in Hne. now rewrite Hne.
Qed.

Lemma parent_dir_root initial :
  (initial = 1 \/ initial = 2) -> parent_dir env (render initial []) = "".
Proof. intros [-> | ->]; reflexivity. Qed.

Lemma ancestors_render initial : forall n comps,
  (initial = 1 \/ initial = 2) -> Forall plain comps -> length comps = n ->
  exists dirs, length dirs = S n /\
    forall fuel, S n <= fuel -> ancestors fuel env (render initial comps) = Some dirs.
Proof.
  induction n as [|n IH]; intros comps Hi Hall Hlen.
  - destruct comps; [|discriminate]. exists [render initial []]. split; [reflexivity|].
    intros [|fuel] Hf; [lia|]. simpl. now rewrite parent_dir_root.
  - destruct comps as [|c l]; [discriminate|].
    assert (Hlen' : length (removelast (c :: l)) = n).
    { rewrite length_removelast_cons. simpl in Hlen. lia. }
    destruct (IH (removelast (c :: l)) Hi (Forall_removelast _ _ Hall) Hlen')
      as (dirs & Hd & Hrun).
    exists (render initial (c :: l) :: dirs). split; [simpl; lia|].
    intros [|fuel] Hf; [lia|]. simpl.
    rewrite parent_dir_render by assumption.
    pose proof (render_not_empty initial (removelast (c :: l)) ltac:(lia)) as Hne.
    apply String.eqb_neq in Hne. rewrite Hne.
    now rewrite Hrun by lia.
Qed.

(** [os.getcwd()] is an absolute path. *)
Hypothesis cwd_abs : PosixPath.isabs (getcwd env) = true.

(** Whatever the argument, [parent_dir] answers the empty string or a
    normalised absolute path. *)
Lemma parent_dir_shape s :
  parent_dir env s = "" \/
  exists initial comps, (initial = 1 \/ initial = 2) /\ Forall plain comps /\
    parent_dir env s = render initial comps.
Proof.
  unfold parent_dir.
  destruct (String.eqb _ s); [now left | right].
  unfold PosixPath.abspath.
  destruct (PosixPath.isabs (PosixPath.join s PosixPath.pardir)) eqn:Habs.
  - now apply normpath_abs.
  - apply normpath_abs. now apply isabs_join.
Qed.

(** The walk is finite from every starting directory. *)
Lemma ancestors_terminate start :
  exists dirs, forall fuel, length dirs <= fuel -> ancestors fuel env start = Some dirs.
Proof.
  destruct (parent_dir_shape start) as [E | (initial & comps & Hi & Hall & E)].
  - exists [start]. intros [|fuel] Hf; [simpl in Hf; lia|]. simpl. now rewrite E.
  - destruct (ancestors_render initial (length comps) comps Hi Hall eq_refl)
      as (dirs & Hd & Hrun).
    exists (start :: dirs). intros [|fuel] Hf; [simpl in Hf; lia|]. simpl in *.
    rewrite E.
    pose proof (render_not_empty initial comps ltac:(lia)) as Hne.
    apply String.eqb_neq in Hne. rewrite Hne.
    now rewrite Hrun by lia.
Qed.

End AncestorWalk.

(** [parent_dir] answers the empty string for the root alone. *)
Lemma parent_dir_empty_root env s :
  PosixPath.isabs (getcwd env) = true ->
  (parent_dir env s = "" <-> s = "/" \/ s = "//").
Proof.
  intros Hcwd. split.
  - intros H.
    assert (Ha : exists initial comps,
               (initial = 1 \/ initial = 2) /\ Forall plain comps /\
               PosixPath.abspath (getcwd env) (PosixPath.join s PosixPath.pardir)
               = render initial comps).
    { unfold PosixPath.abspath.
      destruct (PosixPath.isabs (PosixPath.join s PosixPath.pardir)) eqn:Habs;
        apply normpath_abs; [assumption | now apply isabs_join]. }
    destruct Ha as (initial & comps & Hi & Hall & Ha).
    pose proof H as H'. unfold parent_dir in H'. rewrite Ha in H'.
    destruct (String.eqb (render initial comps) s) eqn:E.
    + apply String.eqb_eq in E. subst s. destruct comps as [|c l].
      * destruct Hi as [-> | ->]; auto.
      * rewrite parent_dir_render in H by assumption.
        exfalso. revert H. apply render_not_empty. lia.
    + exfalso. revert H'. apply render_not_empty. lia.
  - intros [-> | ->]; reflexivity.
Qed.


(** *** Dictionaries *)

Lemma get_set k k' v d :
  Dict.get k (Dict.set k' v d) = if String.eqb k k' then Some v else Dict.get k d.
Proof.
  induction d as [|[k0 v0] d IH]; simpl.
  - reflexivity.
  - destruct (String.eqb k' k0) eqn:E; simpl.
    + apply String.eqb_eq in E; subst k0.
      destruct (String.eqb k k'); reflexivity.
    + rewrite IH. destruct (String.eqb k k0) eqn:E0; [|reflexivity].
      apply String.eqb_eq in E0; subst k0.
      rewrite String.eqb_sym, E. reflexivity.
Qed.

Lemma get_none_iff k d : Dict.get k d = None <-> ~ In k (map fst d).
Proof.
  induction d as [|[k0 v0] d IH]; simpl; [tauto|].
  destruct (String.eqb k k0) eqn:E.
  - apply String.eqb_eq in E. split; [discriminate | intros H; exfalso; auto].
  - apply String.eqb_neq in E. rewrite IH. split; intros H; [intros [?|?]|]; auto.
Qed.

Lemma keys_set k v d k' :
  In k' (map fst (Dict.set k v d)) <-> k' = k \/ In k' (map fst d).
Proof.
  induction d as [|[k0 v0] d IH]; simpl; [intuition|].
  destruct (String.eqb k k0) eqn:E; simpl.
  - apply String.eqb_eq in E; subst. intuition.
  - rewrite IH. intuition.
Qed.

Lemma wf_set k v d : wf_dict d -> wf_dict (Dict.set k v d).
Proof.
  unfold wf_dict. induction d as [|[k0 v0] d IH]; simpl; intros H.
  - repeat constructor. auto.
  - inversion H; subst. destruct (String.eqb k k0) eqn:E; simpl.
    + now constructor.
    + constructor; [|auto]. rewrite keys_set. apply String.eqb_neq in E.
      intros [?|?]; congruence.
Qed.

Lemma wf_update other : forall d, wf_dict d -> wf_dict (Dict.update d other).
Proof.
  unfold Dict.update. induction other as [|[k v] o IH]; intros d H; simpl; auto.
  apply IH. now apply wf_set.
Qed.

Create HintDb dict.
#[local] Hint Resolve wf_set wf_update : dict.
#[local] Hint Constructors NoDup : dict.

(** [d.update(other)]: the keys of [other] take its values, the rest of
    [d] stays. *)
Lemma get_update k other : forall d,
  wf_dict other ->
  Dict.get k (Dict.update d other)
  = match Dict.get k other with Some v => Some v | None => Dict.get k d end.
Proof.
  unfold Dict.update, wf_dict.
  induction other as [|[k1 v1] o IH]; intros d H; simpl; [reflexivity|].
  inversion H; subst. rewrite IH by assumption. rewrite get_set.
  destruct (String.eqb k k1) eqn:E; [|reflexivity].
  apply String.eqb_eq in E; subst k1.
  assert (Hn : Dict.get k o = None) by now apply get_none_iff.
  now rewrite Hn.
Qed.

(** *** Running [file_settings] and the two loops *)

Lemma file_settings_run env file st :
  file_settings env file st = Some (file_trace env file, st, loaded env file).
Proof.
  unfold file_settings, file_trace, loaded, isfile, open, read, decode, print,
    loading_line, error_line, bind, try_except, emit, ret, raise.
  destruct (file_at env file) as [|e|e|content]; simpl; try reflexivity.
  destruct (decode_value env content); reflexivity.
Qed.

Lemma probes_app t1 t2 : probes (t1 ++ t2) = probes t1 ++ probes t2.
Proof. apply flat_map_app. Qed.

Lemma opened_app t1 t2 : opened (t1 ++ t2) = opened t1 ++ opened t2.
Proof. apply flat_map_app. Qed.

Lemma probes_file_trace env file : probes (file_trace env file) = [file].
Proof.
  unfold file_trace. destruct (file_at env file); simpl; try reflexivity.
  destruct (decode_value env content); reflexivity.
Qed.

Lemma opened_file_trace env file : incl (opened (file_trace env file)) [file].
Proof.
  unfold file_trace. destruct (file_at env file); simpl;
    try (destruct (decode_value env content); simpl);
    intros x Hx; simpl in *; tauto.
Qed.

Lemma wf_layer_of env file : host_ok env -> wf_dict (layer_of env file).
Proof.
  intros [_ Hd]. unfold layer_of, loaded.
  destruct (file_at env file) as [|e|e|content]; try constructor.
  destruct (decode_value env content) as [[]|] eqn:E; try constructor.
  eapply Hd; eauto.
Qed.

(** One pass over the files of a directory: no state change; on normal
    return every file was probed once, in order, and the accumulated
    settings stay on top of the files' layers. *)
Lemma for_settings_files_run env files : forall settings st,
  exists tr r,
    for_settings_files env files settings st = Some (tr, st, r) /\
    (exists n, n <= length files /\ probes tr = firstn n files) /\
    incl (opened tr) files /\
    forall settings', r = Ok settings' ->
      probes tr = files /\
      (host_ok env -> wf_dict settings ->
       wf_dict settings' /\
       forall k,
         Dict.get k settings'
         = match Dict.get k settings with
           | Some v => Some v
           | None => closer_wins (map (layer_of env) files) k
           end).
Proof.
  induction files as [|file rest IH]; intros settings st.
  - exists [], (Ok settings). split; [reflexivity|].
    split; [now exists 0|]. split; [intros x []|].
    intros settings' Hs. inversion Hs; subst settings'. split; [reflexivity|].
    intros _ Hwf. split; [assumption|].
    intros k. simpl. now destruct (Dict.get k settings).
  - cbn [for_settings_files]. unfold bind at 1. rewrite file_settings_run.
    assert (Hone : exists n, n <= length (file :: rest) /\
                     probes (file_trace env file) = firstn n (file :: rest)).
    { exists 1. rewrite probes_file_trace. split; [simpl; lia | reflexivity]. }
    assert (Hopen : incl (opened (file_trace env file)) (file :: rest)).
    { intros x Hx. left. apply opened_file_trace in Hx. simpl in Hx; tauto. }
    destruct (loaded env file) as [v|e] eqn:Hl.
    2:{ exists (file_trace env file), (Raise e). repeat split; auto; discriminate. }
    unfold bind at 1, update_method.
    destruct v as [| | | | |d];
      try (eexists _, (Raise _); cbn [raise ret app]; rewrite ?app_nil_r;
           split; [reflexivity|]; repeat split; auto; discriminate).
    cbn [ret].
    destruct (IH (Dict.update d settings) st)
      as (tr & r & Hrun & (n & Hle & Hn) & Hop & Hok).
    rewrite Hrun. exists (file_trace env file ++ [] ++ tr), r.
    split; [reflexivity|]. rewrite app_nil_l.
    assert (Hlayer : layer_of env file = d) by (unfold layer_of; now rewrite Hl).
    split; [|split].
    + exists (S n). rewrite probes_app, probes_file_trace, Hn.
      split; [simpl; lia | reflexivity].
    + rewrite opened_app. apply incl_app; [assumption | now apply incl_tl].
    + intros settings' Hr. destruct (Hok settings' Hr) as (Hp & Hget).
      split.
      * rewrite probes_app, probes_file_trace, Hp. reflexivity.
      * intros Hhost Hwf.
        assert (Hd : wf_dict d) by (rewrite <- Hlayer; now apply wf_layer_of).
        destruct (Hget Hhost (wf_update _ _ Hd)) as (Hwf' & Hk).
        split; [assumption|]. intros k. rewrite Hk, get_update by assumption.
        cbn [map closer_wins]. rewrite Hlayer.
        now destruct (Dict.get k settings).
Qed.

Lemma layers_cons env syntax_name d dirs :
  layers env syntax_name (d :: dirs)
  = map (layer_of env) (settings_files d syntax_name) ++ layers env syntax_name dirs.
Proof. reflexivity. Qed.

Lemma closer_wins_app l1 l2 k :
  closer_wins (l1 ++ l2) k
  = match closer_wins l1 k with Some v => Some v | None => closer_wins l2 k end.
Proof.
  induction l1 as [|l l1 IH]; simpl; [reflexivity|].
  destruct (Dict.get k l); auto.
Qed.

Lemma firstn_app_le {A} n (l1 l2 : list A) :
  n <= length l1 -> firstn n (l1 ++ l2) = firstn n l1.
Proof.
  intros H. rewrite firstn_app. replace (n - length l1) with 0 by lia.
  now rewrite firstn_O, app_nil_r.
Qed.

(** The whole loop, for a bound that covers the walk. *)
Lemma walk_loop_run env syntax_name : forall fuel settings settings_dir dirs st,
  ancestors fuel env settings_dir = Some dirs ->
  exists tr r,
    walk_loop fuel env syntax_name settings settings_dir st = Some (tr, st, r) /\
    (exists n, probes tr
               = firstn n (flat_map (fun d => settings_files d syntax_name) dirs)) /\
    incl (opened tr) (flat_map (fun d => settings_files d syntax_name) dirs) /\
    forall settings', r = Ok settings' ->
      probes tr = flat_map (fun d => settings_files d syntax_name) dirs /\
      (host_ok env -> wf_dict settings ->
       wf_dict settings' /\
       forall k,
         Dict.get k settings'
         = match Dict.get k settings with
           | Some v => Some v
           | None => closer_wins (layers env syntax_name dirs) k
           end).
Proof.
  induction fuel as [|fuel IH]; intros settings settings_dir dirs st Hanc;
    [discriminate|].
  cbn [ancestors] in Hanc. cbn [walk_loop]. unfold bind at 1.
  destruct (for_settings_files_run env (settings_files settings_dir syntax_name) settings st)
    as (tr1 & r1 & Hrun1 & (n1 & Hle1 & Hn1) & Hop1 & Hok1).
  rewrite Hrun1.
  destruct (String.eqb (parent_dir env settings_dir) "") eqn:Hp.
  - inversion Hanc; subst dirs; clear Hanc.
    cbn [flat_map]. rewrite app_nil_r.
    destruct r1 as [s1|e].
    + exists (tr1 ++ []), (Ok s1). cbn [ret]. split; [reflexivity|].
      rewrite app_nil_r. split; [eauto|]. split; [assumption|].
      intros s' Hs'. inversion Hs'; subst s'.
      destruct (Hok1 s1 eq_refl) as (Hpr & Hget). split; [assumption|].
      intros Hh Hwf. destruct (Hget Hh Hwf) as (Hwf1 & Hk). split; [assumption|].
      intros k. rewrite Hk. unfold layers. cbn [flat_map]. now rewrite app_nil_r.
    + exists tr1, (Raise e). split; [reflexivity|]. split; [eauto|].
      split; [assumption|]. discriminate.
  - destruct (ancestors fuel env (parent_dir env settings_dir)) as [dirs'|] eqn:Hanc';
      [|discriminate].
    inversion Hanc; subst dirs; clear Hanc. cbn [flat_map].
    destruct r1 as [s1|e].
    + destruct (IH s1 _ _ st Hanc') as (tr2 & r2 & Hrun2 & (n2 & Hn2) & Hop2 & Hok2).
      rewrite Hrun2. exists (tr1 ++ tr2), r2. split; [reflexivity|].
      destruct (Hok1 s1 eq_refl) as (Hpr1 & Hget1).
      split; [|split].
      * exists (length (settings_files settings_dir syntax_name) + n2).
        rewrite probes_app, Hpr1, Hn2. now rewrite firstn_app_2.
      * rewrite opened_app. apply incl_app;
          [now apply incl_appl | now apply incl_appr].
      * intros s' Hs'. destruct (Hok2 s' Hs') as (Hpr2 & Hget2). split.
        -- now rewrite probes_app, Hpr1, Hpr2.
        -- intros Hh Hwf. destruct (Hget1 Hh Hwf) as (Hwf1 & Hk1).
           destruct (Hget2 Hh Hwf1) as (Hwf2 & Hk2). split; [assumption|].
           intros k. rewrite Hk2, Hk1, layers_cons, closer_wins_app.
           now destruct (Dict.get k settings).
    + exists tr1, (Raise e). split; [reflexivity|]. split.
      * exists n1. now rewrite Hn1, firstn_app_le.
      * split; [now apply incl_appl | discriminate].
Qed.

(** Files that give dictionaries never stop the loops. *)
Lemma for_settings_files_ok env files : forall settings st,
  Forall (gives_dict env) files ->
  exists tr settings',
    for_settings_files env files settings st = Some (tr, st, Ok settings').
Proof.
  induction files as [|file rest IH]; intros settings st Hall.
  - now exists [], settings.
  - inversion Hall as [|? ? (d & Hd) Hrest]; subst.
    destruct (IH (Dict.update d settings) st Hrest) as (tr & s' & Hrun).
    cbn [for_settings_files]. unfold bind. rewrite file_settings_run, Hd.
    cbn [update_method ret]. rewrite Hrun. eauto.
Qed.

Lemma walk_loop_ok env syntax_name : forall fuel settings settings_dir dirs st,
  ancestors fuel env settings_dir = Some dirs ->
  Forall (gives_dict env) (flat_map (fun d => settings_files d syntax_name) dirs) ->
  exists tr settings',
    walk_loop fuel env syntax_name settings settings_dir st = Some (tr, st, Ok settings').
Proof.
  induction fuel as [|fuel IH]; intros settings settings_dir dirs st Hanc Hall;
    [discriminate|].
  cbn [ancestors] in Hanc. cbn [walk_loop]. unfold bind at 1.
  destruct (String.eqb (parent_dir env settings_dir) "") eqn:Hp.
  - inversion Hanc; subst dirs; clear Hanc.
    cbn [flat_map] in Hall. rewrite app_nil_r in Hall.
    destruct (for_settings_files_ok env _ settings st Hall) as (tr & s' & Hrun).
    rewrite Hrun. cbn [ret]. eauto.
  - destruct (ancestors fuel env (parent_dir env settings_dir)) as [dirs'|] eqn:Hanc';
      [|discriminate].
    inversion Hanc; subst dirs; clear Hanc.
    cbn [flat_map] in Hall. apply Forall_app in Hall as (Hhere & Hup).
    destruct (for_settings_files_ok env _ settings st Hhere) as (tr1 & s1 & Hrun1).
    destruct (IH s1 _ _ st Hanc' Hup) as (tr2 & s2 & Hrun2).
    rewrite Hrun1, Hrun2. eauto.
Qed.

(** A missing file, a file that cannot be read and a file that cannot be
    decoded give the empty dictionary. *)
Lemma gives_dict_missing_or_corrupt env file :
  file_at env file = NotAFile \/
  (exists e, file_at env file = ReadFails e) \/
  (exists content e,
     file_at env file = Text content /\ decode_value env content = Raise e) ->
  loaded env file = Ok (JDict []).
Proof.
  unfold loaded.
  intros [E | [(e & E) | (content & e & E & D)]]; rewrite E; [reflexivity..|].
  now rewrite D.
Qed.

Lemma view_settings_unfold fuel env view st :
  view_settings fuel env view st =
  match Dict.get "syntax" (stores st (View.id view)) with
  | Some (JStr s) =>
      match View.file_name view with
      | Some path =>
          walk_loop fuel env (PosixPath.splitext_root (PosixPath.basename s)) []
            (parent_dir env path) st
      | None => Some ([], st, Raise no_path_error)
      end
  | _ => Some ([], st, Raise no_syntax_error)
  end.
Proof.
  unfold view_settings, bind, settings_get, syntax_name_of, parent_dir_of_file,
    ret, raise.
  destruct (Dict.get "syntax" (stores st (View.id view))) as [[]|]; try reflexivity.
  destruct (View.file_name view); [|reflexivity].
  destruct (walk_loop _ _ _ _ _ _) as [[[tr st'] r]|]; reflexivity.
Qed.

Lemma walk_loop_state env syntax_name : forall fuel settings settings_dir st tr st' r,
  walk_loop fuel env syntax_name settings settings_dir st = Some (tr, st', r) ->
  st' = st.
Proof.
  induction fuel as [|fuel IH]; intros settings settings_dir st tr st' r H;
    [discriminate|].
  cbn [walk_loop] in H. unfold bind at 1 in H.
  destruct (for_settings_files_run env (settings_files settings_dir syntax_name) settings st)
    as (tr1 & r1 & Hrun1 & _).
  rewrite Hrun1 in H. destruct r1 as [s1|e]; [|now inversion H].
  destruct (String.eqb (parent_dir env settings_dir) "").
  - now inversion H.
  - destruct (walk_loop fuel env syntax_name s1 _ st) as [[[tr2 st2] r2]|] eqn:E;
      [|discriminate].
    apply IH in E. inversion H; now subst.
Qed.

Lemma view_settings_state fuel env view st tr st' r :
  view_settings fuel env view st = Some (tr, st', r) -> st' = st.
Proof.
  rewrite view_settings_unfold.
  destruct (Dict.get "syntax" (stores st (View.id view))) as [[]|];
    try (intros H; now inversion H).
  destruct (View.file_name view); [|intros H; now inversion H].
  apply walk_loop_state.
Qed.

Lemma for_items_run view : forall items st,
  exists st',
    for_items view items st = Some (set_events (View.id view) items, st', Ok tt) /\
    configured_views st' = configured_views st /\
    stores st' (View.id view) = Dict.update (stores st (View.id view)) items /\
    forall j, j <> View.id view -> stores st' j = stores st j.
Proof.
  induction items as [|[name value] items IH]; intros st.
  - exists st. repeat split; reflexivity.
  - cbn [for_items]. unfold bind at 1, settings_set.
    match goal with |- context [for_items view items ?s] =>
      destruct (IH s) as (st' & Hrun & Hcv & Hst & Hoth) end.
    rewrite Hrun. exists st'. split; [reflexivity|].
    cbn [configured_views stores] in *. rewrite Z.eqb_refl in Hst.
    repeat split; auto.
    intros j Hj. rewrite (Hoth j Hj).
    apply Z.eqb_neq in Hj. now rewrite Hj.
Qed.

Lemma list_in_spec x l : list_in x l = true <-> In x l.
Proof.
  unfold list_in. rewrite existsb_exists. split.
  - intros (y & Hy & E). apply Z.eqb_eq in E. now subst.
  - intros H. exists x. split; [assumption | apply Z.eqb_refl].
Qed.

Lemma apply_settings_skip fuel env view st :
  list_in (View.id view) (configured_views st) = true ->
  apply_settings fuel env view st = Some ([], st, Ok tt).
Proof.
  intros H. unfold apply_settings, bind, get_configured_views. now rewrite H.
Qed.

Lemma apply_settings_fresh fuel env view st :
  list_in (View.id view) (configured_views st) = false ->
  match view_settings fuel env view st with
  | None => apply_settings fuel env view st = None
  | Some (tr, _, Raise e) => apply_settings fuel env view st = Some (tr, st, Raise e)
  | Some (tr, _, Ok resolved) =>
      exists st',
        apply_settings fuel env view st
        = Some (tr ++ set_events (View.id view) resolved, st', Ok tt) /\
        configured_views st' = configured_views st ++ [View.id view] /\
        stores st' (View.id view) = Dict.update (stores st (View.id view)) resolved /\
        forall j, j <> View.id view -> stores st' j = stores st j
  end.
Proof.
  intros H.
  destruct (view_settings fuel env view st) as [[[tr st1] [resolved|e]]|] eqn:Hv.
  - apply view_settings_state in Hv as Hst1. subst st1.
    destruct (for_items_run view (Dict.items resolved) st)
      as (st2 & Hrun & Hcv & Hst & Hoth).
    eexists. split.
    + cbv beta delta [apply_settings bind get_configured_views]. cbv beta iota.
      rewrite H, Hv, Hrun. cbv beta delta [put_configured_views]. cbv beta iota.
      rewrite !app_nil_r. reflexivity.
    + cbn [configured_views stores]. rewrite Hcv. auto.
  - apply view_settings_state in Hv as Hst1. subst st1.
    cbv beta delta [apply_settings bind get_configured_views]. cbv beta iota.
    now rewrite H, Hv.
  - cbv beta delta [apply_settings bind get_configured_views]. cbv beta iota.
    now rewrite H, Hv.
Qed.

Lemma preserves_bind {A B} P (m : M A) (k : A -> M B) :
  preserves P m -> (forall a, preserves P (k a)) -> preserves P (bind m k).
Proof.
  intros Hm Hk st tr st' r HP H. unfold bind in H.
  destruct (m st) as [[[tr1 st1] [a|e]]|] eqn:Em; [| |discriminate].
  - destruct (k a st1) as [[[tr2 st2] r2]|] eqn:Ek; [|discriminate].
    inversion H; subst. eapply Hk; [|exact Ek]. eapply Hm; eauto.
  - inversion H; subst. eapply Hm; eauto.
Qed.

Lemma preserves_ret {A} P (a : A) : preserves P (ret a).
Proof. intros st tr st' r HP H. inversion H; now subst. Qed.

Lemma NoDup_snoc {A} (x : A) l : NoDup l -> ~ In x l -> NoDup (l ++ [x]).
Proof.
  intros Hl Hx. apply NoDup_app; [assumption | repeat constructor; auto |].
  intros y Hy [<-|[]]. auto.
Qed.

Lemma apply_settings_registry fuel env view st tr st' r :
  apply_settings fuel env view st = Some (tr, st', r) ->
  configured_views st' = configured_views st \/
  (~ In (View.id view) (configured_views st) /\ r = Ok tt /\
   configured_views st' = configured_views st ++ [View.id view]).
Proof.
  intros H. destruct (list_in (View.id view) (configured_views st)) eqn:Hin.
  - rewrite apply_settings_skip in H by assumption. inversion H; subst. now left.
  - pose proof (apply_settings_fresh fuel env view st Hin) as Hf.
    destruct (view_settings fuel env view st) as [[[tr1 st1] [resolved|e]]|].
    + destruct Hf as (st2 & Hrun & Hcv & _). rewrite Hrun in H. inversion H; subst.
      right. split; [|auto]. rewrite <- list_in_spec. congruence.
    + rewrite Hf in H. inversion H; subst. now left.
    + congruence.
Qed.

Lemma apply_settings_preserves fuel env view :
  preserves registry_ok (apply_settings fuel env view).
Proof.
  intros st tr st' r HP H. unfold registry_ok in *.
  destruct (apply_settings_registry _ _ _ _ _ _ _ H) as [E | (Hn & _ & E)]; rewrite E.
  - assumption.
  - now apply NoDup_snoc.
Qed.

Lemma for_views_preserves fuel env views :
  preserves registry_ok (for_views fuel env views).
Proof.
  induction views as [|v views IH]; cbn [for_views].
  - apply preserves_ret.
  - apply preserves_bind; [apply apply_settings_preserves | auto].
Qed.

Lemma plugin_loaded_preserves fuel env windows :
  preserves registry_ok (plugin_loaded fuel env windows).
Proof.
  induction windows as [|w windows IH]; cbn [plugin_loaded].
  - apply preserves_ret.
  - apply preserves_bind; [apply for_views_preserves | auto].
Qed.

Lemma list_remove_none x l : list_remove x l = None <-> ~ In x l.
Proof.
  induction l as [|y l IH]; simpl; [tauto|].
  destruct (Z.eqb y x) eqn:E.
  - apply Z.eqb_eq in E. split; [discriminate | intros H; exfalso; auto].
  - apply Z.eqb_neq in E. destruct (list_remove x l).
    + split; [discriminate|]. intros H. exfalso. apply H. right.
      destruct (in_dec Z.eq_dec x l); [assumption|]. apply IH in n. discriminate.
    + split; [|reflexivity]. intros _ [?|?]; [congruence|]. now apply IH.
Qed.

Lemma list_remove_some x l l' :
  list_remove x l = Some l' ->
  In x l /\ (forall y, In y l' -> In y l) /\
  (forall y, y <> x -> In y l -> In y l') /\
  (NoDup l -> NoDup l' /\ ~ In x l').
Proof.
  revert l'. induction l as [|y l IH]; simpl; intros l' H; [discriminate|].
  destruct (Z.eqb y x) eqn:E.
  - apply Z.eqb_eq in E. inversion H; subst. repeat split; auto.
    + intros y Hy [?|?]; [congruence | assumption].
    + now inversion H0.
    + now inversion H0.
  - destruct (list_remove x l) as [r|]; [|discriminate]. inversion H; subst.
    destruct (IH r eq_refl) as (Hin & Hsub & Hkeep & Hnd). apply Z.eqb_neq in E.
    split; [auto|]. split; [|split].
    + intros z [?|?]; auto.
    + intros z Hz [?|?]; [now left | right; auto].
    + intros Hl. inversion Hl; subst. destruct (Hnd H3) as (Hr & Hx).
      split; [constructor; auto | intros [?|?]; auto].
Qed.

(** [on_close] never raises and has no visible effect but on the
    registry. *)
Lemma on_close_run view st :
  on_close view st
  = Some ([],
          match list_remove (View.id view) (configured_views st) with
          | Some registry' => {| configured_views := registry'; stores := stores st |}
          | None => st
          end,
          Ok tt).
Proof.
  unfold on_close, try_except, bind, get_configured_views, put_configured_views,
    raise, ret.
  destruct (list_remove (View.id view) (configured_views st)); reflexivity.
Qed.

Lemma on_close_preserves view : preserves registry_ok (on_close view).
Proof.
  intros st tr st' r HP H. rewrite on_close_run in H. inversion H; subst.
  unfold registry_ok in *.
  destruct (list_remove _ _) eqn:E; [|assumption].
  now apply list_remove_some in E as (_ & _ & _ & Hn); [apply Hn|..].
Qed.

Lemma reachable_registry_ok env st : reachable env st -> registry_ok st.
Proof.
  induction 1 as [s0|st fuel h tr st' r _ IH Hrun|st s' _ IH].
  - constructor.
  - destruct h; cbn [run_hook on_load on_post_save] in Hrun.
    + eapply plugin_loaded_preserves; eauto.
    + eapply apply_settings_preserves; eauto.
    + eapply apply_settings_preserves; eauto.
    + eapply on_close_preserves; eauto.
  - exact IH.
Qed.

Lemma on_close_unregisters view st :
  registry_ok st ->
  exists st',
    on_close view st = Some ([], st', Ok tt) /\
    ~ In (View.id view) (configured_views st') /\
    (forall y, In y (configured_views st') <->
               In y (configured_views st) /\ y <> View.id view) /\
    stores st' = stores st /\
    (~ In (View.id view) (configured_views st) -> st' = st).
Proof.
  intros Hok. rewrite on_close_run. eexists. split; [reflexivity|].
  destruct (list_remove (View.id view) (configured_views st)) as [l'|] eqn:E.
  - apply list_remove_some in E as (Hin & Hsub & Hkeep & Hnd).
    destruct (Hnd Hok) as (_ & Hx). cbn [configured_views stores].
    repeat split; auto.
    + intros ->. contradiction.
    + intros (Hy & Hne). auto.
    + intros Hn. contradiction.
  - apply list_remove_none in E. repeat split; auto.
    + intros ->. contradiction.
    + tauto.
Qed.

(** *** Fuel *)

Lemma walk_loop_mono env syntax_name : forall fuel fuel' settings settings_dir st x,
  walk_loop fuel env syntax_name settings settings_dir st = Some x ->
  fuel <= fuel' ->
  walk_loop fuel' env syntax_name settings settings_dir st = Some x.
Proof.
  induction fuel as [|fuel IH]; intros fuel' settings settings_dir st x H Hle;
    [discriminate|].
  destruct fuel' as [|fuel']; [lia|].
  cbn [walk_loop] in *. unfold bind in *.
  destruct (for_settings_files env _ settings st) as [[[tr1 st1] [s1|e]]|]; auto.
  destruct (String.eqb (parent_dir env settings_dir) ""); auto.
  destruct (walk_loop fuel env syntax_name s1 _ st1) as [y|] eqn:E; [|discriminate].
  now rewrite (IH fuel' _ _ _ _ E) by lia.
Qed.

Lemma ancestors_mono env : forall fuel fuel' d dirs,
  ancestors fuel env d = Some dirs -> fuel <= fuel' ->
  ancestors fuel' env d = Some dirs.
Proof.
  induction fuel as [|fuel IH]; intros fuel' d dirs H Hle; [discriminate|].
  destruct fuel' as [|fuel']; [lia|]. cbn [ancestors] in *.
  destruct (String.eqb (parent_dir env d) ""); auto.
  destruct (ancestors fuel env (parent_dir env d)) as [ds|] eqn:E; [|discriminate].
  now rewrite (IH fuel' _ _ E) by lia.
Qed.

Lemma ancestors_length env : forall fuel d dirs,
  ancestors fuel env d = Some dirs -> 0 < length dirs <= fuel.
Proof.
  induction fuel as [|fuel IH]; intros d dirs H; [discriminate|].
  cbn [ancestors] in H. destruct (String.eqb (parent_dir env d) "").
  - inversion H; subst. simpl. lia.
  - destruct (ancestors fuel env (parent_dir env d)) as [ds|] eqn:E; [|discriminate].
    inversion H; subst. apply IH in E. simpl. lia.
Qed.

(** The last directory of the walk is the one whose parent is empty. *)
Lemma ancestors_iter env : forall fuel d dirs,
  ancestors fuel env d = Some dirs ->
  Nat.iter (length dirs) (parent_dir env) d = "" /\
  dirs = map (fun n => Nat.iter n (parent_dir env) d) (seq 0 (length dirs)).
Proof.
  induction fuel as [|fuel IH]; intros d dirs H; [discriminate|].
  cbn [ancestors] in H. destruct (String.eqb (parent_dir env d) "") eqn:Hp.
  - inversion H; subst. apply String.eqb_eq in Hp. split; [exact Hp | reflexivity].
  - destruct (ancestors fuel env (parent_dir env d)) as [ds|] eqn:E; [|discriminate].
    inversion H; subst. destruct (IH _ _ E) as (Hend & Hds).
    cbn [length]. rewrite Nat.iter_succ_r. split; [exact Hend|].
    cbn [seq map Nat.iter]. f_equal. rewrite <- seq_shift, map_map.
    rewrite Hds at 1. apply map_ext. intros n. now rewrite Nat.iter_succ_r.
Qed.





(** *** The example hosts are well behaved *)

Lemma decoder_of_wf table :
  Forall (fun cv => match snd cv with JDict d => wf_dict d | _ => True end) table ->
  forall content d, decoder_of table content = Ok (JDict d) -> wf_dict d.
Proof.
  unfold decoder_of. intros Hall content d H.
  destruct (lookup content table) as [v|] eqn:E; [|discriminate].
  inversion H; subst v; clear H.
  induction table as [|[c v] table IH]; [discriminate|].
  inversion Hall; subst. simpl in E.
  destruct (String.eqb content c); [inversion E; now subst | auto].
Qed.

Ltac wf_table :=
  repeat constructor; unfold wf_dict; simpl;
  repeat constructor; simpl; intuition discriminate.

Lemma precedence_host_ok : host_ok precedence_host.
Proof. split; [reflexivity | apply decoder_of_wf; wf_table]. Qed.

Lemma overlay_host_ok : host_ok overlay_host.
Proof. split; [reflexivity | apply decoder_of_wf; wf_table]. Qed.

Ltac key_cases k :=
  simpl;
  repeat match goal with
         | |- context [String.eqb k ?s] =>
             let E := fresh "E" in destruct (String.eqb k s) eqn:E
         end;
  repeat match goal with
         | H : String.eqb _ _ = true |- _ => apply String.eqb_eq in H
         end;
  subst; try discriminate; try reflexivity.

(** ** The claims *)

(** C1. Closer wins across directories.  For a view with a file path and
    a syntax, [view_settings] ends for every bound that covers the walk,
    leaves the state alone, returns a mapping when every file on the way
    gives a dictionary, and in the mapping it returns the value of
    every key is the one of the nearest layer that defines it, in the
    order the directories are visited (within a directory the syntax
    file, then [Preferences]); keys of farther layers are kept.  For D0
    = [{a:1}], D1 = [{a:2, b:2}], D2 = [{b:3, c:3}] the result is
    [{a:1, b:2, c:3}]. *)
Theorem view_settings_closer_wins :
  (forall env view st path syntax_file,
     host_ok env ->
     View.file_name view = Some path ->
     Dict.get "syntax" (stores st (View.id view)) = Some (JStr syntax_file) ->
     exists dirs tr r,
       (forall fuel, length dirs <= fuel ->
          ancestors fuel env (parent_dir env path) = Some dirs /\
          view_settings fuel env view st = Some (tr, st, r)) /\
       (Forall (gives_dict env)
          (flat_map
             (fun d =>
                settings_files d
                  (PosixPath.splitext_root (PosixPath.basename syntax_file)))
             dirs) ->
        exists settings, r = Ok settings) /\
       forall settings, r = Ok settings ->
         forall k,
           Dict.get k settings
           = closer_wins
               (layers env (PosixPath.splitext_root (PosixPath.basename syntax_file))
                  dirs) k)
  /\
  (exists tr settings,
     view_settings 3 precedence_host main_py fresh_state
     = Some (tr, fresh_state, Ok settings) /\
     ancestors 3 precedence_host "/proj/src" = Some ["/proj/src"; "/proj"; "/"] /\
     forall k,
       Dict.get k settings
       = Dict.get k [("a", JNum 1); ("b", JNum 2); ("c", JNum 3)]).
Proof.
  split.
  - intros env view st path syntax_file Hok Hf Hs.
    destruct (ancestors_terminate env (cwd_absolute _ Hok) (parent_dir env path))
      as (dirs & Hdirs).
    destruct (walk_loop_run env (PosixPath.splitext_root (PosixPath.basename syntax_file))
                (length dirs) [] _ dirs st (Hdirs _ (le_n _)))
      as (tr & r & Hrun & _ & _ & Hres).
    exists dirs, tr, r. split; [|split].
    + intros fuel Hle. split; [auto|].
      rewrite view_settings_unfold, Hs, Hf. eapply walk_loop_mono; eauto.
    + intros Hall.
      destruct (walk_loop_ok env _ (length dirs) [] _ dirs st (Hdirs _ (le_n _)) Hall)
        as (tr' & settings & Hrun').
      rewrite Hrun in Hrun'. inversion Hrun'; subst. eauto.
    + intros settings Hr k.
      destruct (Hres settings Hr) as (_ & Hget).
      destruct (Hget Hok) as (_ & Hk); [constructor|]. now rewrite Hk.
  - eexists _, _. split; [vm_compute; reflexivity|]. split; [reflexivity|].
    intros k. key_cases k.
Qed.

Lemma view_settings_closer_wins_witness :
  exists dirs tr r,
    (forall fuel, length dirs <= fuel ->
       ancestors fuel precedence_host (parent_dir precedence_host "/proj/src/main.py")
       = Some dirs /\
       view_settings fuel precedence_host main_py fresh_state
       = Some (tr, fresh_state, r)) /\
    (Forall (gives_dict precedence_host)
       (flat_map
          (fun d =>
             settings_files d
               (PosixPath.splitext_root
                  (PosixPath.basename "Packages/Python/Python.sublime-syntax")))
          dirs) ->
     exists settings, r = Ok settings) /\
    forall settings, r = Ok settings ->
      forall k,
        Dict.get k settings
        = closer_wins
            (layers precedence_host
               (PosixPath.splitext_root
                  (PosixPath.basename "Packages/Python/Python.sublime-syntax"))
               dirs) k.
Proof.
  exact (proj1 view_settings_closer_wins precedence_host main_py fresh_state
           "/proj/src/main.py" "Packages/Python/Python.sublime-syntax"
           precedence_host_ok eq_refl eq_refl).
Defined.

(** C2. Within one directory the syntax-specific file is on top of the
    generic one: when both files decode to mappings, the pass over the
    directory returns a mapping whose value for a key is the syntax
    file's when it has the key and the generic file's otherwise.  With
    [{tab_size:4}] over [{tab_size:2, font_size:10}] the layer is
    [{tab_size:4, font_size:10}]. *)
Theorem syntax_file_over_preferences :
  (forall env directory syntax_name st syntax_text generic_text syntax_d generic_d,
     host_ok env ->
     file_at env (directory ++ "/" ++ syntax_name ++ ".sublime-settings")
     = Text syntax_text ->
     decode_value env syntax_text = Ok (JDict syntax_d) ->
     file_at env (directory ++ "/Preferences.sublime-settings") = Text generic_text ->
     decode_value env generic_text = Ok (JDict generic_d) ->
     exists tr layer,
       for_settings_files env (settings_files directory syntax_name) [] st
       = Some (tr, st, Ok layer) /\
       forall k,
         Dict.get k layer
         = match Dict.get k syntax_d with
           | Some v => Some v
           | None => Dict.get k generic_d
           end)
  /\
  (exists tr,
     for_settings_files overlay_host (settings_files "/proj" "Python") [] fresh_state
     = Some (tr, fresh_state,
             Ok [("tab_size", JNum 4); ("font_size", JNum 10)])).
Proof.
  split.
  - intros env directory syntax_name st syntax_text generic_text syntax_d generic_d
      Hok Hsf Hsd Hgf Hgd.
    assert (Hls : loaded env (directory ++ "/" ++ syntax_name ++ ".sublime-settings")
                  = Ok (JDict syntax_d)) by (unfold loaded; now rewrite Hsf, Hsd).
    assert (Hlg : loaded env (directory ++ "/Preferences.sublime-settings")
                  = Ok (JDict generic_d)) by (unfold loaded; now rewrite Hgf, Hgd).
    unfold settings_files. cbn [for_settings_files].
    unfold bind. rewrite !file_settings_run, Hls. cbn [update_method ret].
    rewrite file_settings_run, Hlg. cbn [update_method ret].
    eexists _, _. split; [reflexivity|].
    intros k.
    assert (Hws : wf_dict syntax_d) by (eapply decoded_dicts; eauto).
    rewrite get_update by auto with dict.
    rewrite get_update by (unfold wf_dict; simpl; auto with dict).
    destruct (Dict.get k syntax_d); reflexivity.
  - eexists. vm_compute. reflexivity.
Qed.

Lemma syntax_file_over_preferences_witness :
  exists tr layer,
    for_settings_files overlay_host (settings_files "/proj" "Python") [] fresh_state
    = Some (tr, fresh_state, Ok layer) /\
    forall k,
      Dict.get k layer
      = match Dict.get k [("tab_size", JNum 4)] with
        | Some v => Some v
        | None => Dict.get k [("tab_size", JNum 2); ("font_size", JNum 10)]
        end.
Proof.
  exact (proj1 syntax_file_over_preferences overlay_host "/proj" "Python" fresh_state
           "syntax" "generic" _ _ overlay_host_ok eq_refl eq_refl eq_refl eq_refl).
Defined.

(** What [file_settings] does contain: a missing file and every failure
    of [read] or of the decoder give an empty dictionary, the failure
    being printed. *)
Lemma file_settings_contained env file st :
  (forall e, file_at env file <> OpenFails e) ->
  exists v,
    file_settings env file st = Some (file_trace env file, st, Ok v) /\
    (file_at env file = NotAFile -> v = JDict [] /\ file_trace env file = [IsFile file]) /\
    (forall e, file_at env file = ReadFails e ->
       v = JDict [] /\ In (Stdout (error_line file e)) (file_trace env file)) /\
    (forall content e, file_at env file = Text content ->
       decode_value env content = Raise e ->
       v = JDict [] /\ In (Stdout (error_line file e)) (file_trace env file)).
Proof.
  intros Hopen. rewrite file_settings_run. unfold loaded, file_trace.
  destruct (file_at env file) as [|e|e|content] eqn:E.
  - exists (JDict []). split; [reflexivity|]. split; [auto|].
    split; [intros e' He' | intros content e' He']; discriminate.
  - exfalso. now apply (Hopen e).
  - exists (JDict []). split; [reflexivity|]. split; [discriminate|]. split.
    + intros e' He'. inversion He'; subst e'. split; [reflexivity|]. simpl. auto.
    + intros content e' He'. discriminate.
  - destruct (decode_value env content) as [v|e] eqn:D.
    + exists v. split; [reflexivity|]. split; [discriminate|]. split.
      * intros e' He'. discriminate.
      * intros content' e' He' Hd. inversion He'; subst content'. congruence.
    + exists (JDict []). split; [reflexivity|]. split; [discriminate|]. split.
      * intros e' He'. discriminate.
      * intros content' e' He' Hd. inversion He'; subst content'.
        rewrite D in Hd. inversion Hd; subst e'. split; [reflexivity|].
        simpl. auto.
Qed.

(** A file that decodes to something else than an object is handed back
    as it is, and [update] is missing on it: the call ends there. *)
Lemma view_settings_non_object_aborts :
  exists tr msg,
    view_settings 3 array_host proj_py fresh_state
    = Some (tr, fresh_state, Raise (AttributeError msg)) /\
    probes tr = ["/proj/Python.sublime-settings"; "/proj/Preferences.sublime-settings"].
Proof. eexists _, _. split; [vm_compute; reflexivity | reflexivity]. Qed.

(** C3, at the failing input.  A regular file that [open] refuses: the
    [OSError] leaves [file_settings], no diagnostic is printed, and
    [view_settings] is aborted before the root directory is looked at. *)
Theorem file_settings_open_error_propagates :
  file_settings locked_host "/proj/Preferences.sublime-settings" fresh_state
  = Some ([IsFile "/proj/Preferences.sublime-settings";
           Stdout (loading_line "/proj/Preferences.sublime-settings");
           OpenFile "/proj/Preferences.sublime-settings"],
          fresh_state, Raise (OSError "Permission denied"))
  /\
  exists tr,
    view_settings 3 locked_host proj_py fresh_state
    = Some (tr, fresh_state, Raise (OSError "Permission denied")) /\
    ancestors 3 locked_host "/proj" = Some ["/proj"; "/"] /\
    probes tr = ["/proj/Python.sublime-settings"; "/proj/Preferences.sublime-settings"] /\
    prints tr = [loading_line "/proj/Preferences.sublime-settings"].
Proof.
  split; [reflexivity|]. eexists. split; [vm_compute; reflexivity|].
  repeat split.
Qed.

(** C4. A view whose id is in [configured_views] is left alone: nothing
    is probed, read, printed or written and the state is the same; so
    two calls in a row end in the state of one. *)
Theorem apply_settings_idempotent fuel env view st :
  (In (View.id view) (configured_views st) ->
   apply_settings fuel env view st = Some ([], st, Ok tt))
  /\
  (forall tr st',
     apply_settings fuel env view st = Some (tr, st', Ok tt) ->
     In (View.id view) (configured_views st') /\
     forall fuel', apply_settings fuel' env view st' = Some ([], st', Ok tt))
  /\
  (apply_settings fuel env view ;;; apply_settings fuel env view)%py st
  = apply_settings fuel env view st.
Proof.
  assert (Hskip : forall s f, In (View.id view) (configured_views s) ->
                    apply_settings f env view s = Some ([], s, Ok tt)).
  { intros s f H. apply apply_settings_skip. now apply list_in_spec. }
  assert (Hreg : forall tr st',
             apply_settings fuel env view st = Some (tr, st', Ok tt) ->
             In (View.id view) (configured_views st')).
  { intros tr st' H.
    destruct (list_in (View.id view) (configured_views st)) eqn:Hin.
    - rewrite apply_settings_skip in H by assumption. inversion H; subst.
      now apply list_in_spec.
    - pose proof (apply_settings_fresh fuel env view st Hin) as Hf.
      destruct (view_settings fuel env view st) as [[[tr1 st1] [resolved|e]]|].
      + destruct Hf as (st2 & Hrun & Hcv & _). rewrite Hrun in H.
        inversion H; subst. rewrite Hcv. apply in_or_app. right. now left.
      + rewrite Hf in H. discriminate.
      + congruence. }
  split; [auto|]. split; [intros tr st' H; split; eauto|].
  unfold bind.
  destruct (apply_settings fuel env view st) as [[[tr st'] [[]|e]]|] eqn:H;
    try reflexivity.
  rewrite (Hskip st' fuel (Hreg _ _ eq_refl)). now rewrite app_nil_r.
Qed.

Lemma apply_settings_idempotent_witness :
  exists tr st',
    apply_settings 3 precedence_host main_py fresh_state = Some (tr, st', Ok tt) /\
    In 1%Z (configured_views st') /\
    writes tr = [(1%Z, "b", JNum 2); (1%Z, "c", JNum 3); (1%Z, "a", JNum 1)] /\
    apply_settings 3 precedence_host main_py st' = Some ([], st', Ok tt).
Proof.
  eexists _, _. split; [vm_compute; reflexivity|].
  split; [simpl; auto|]. split; [reflexivity|].
  apply (proj1 (apply_settings_idempotent 3 precedence_host main_py _)).
  simpl. auto.
Defined.

(** C5, at the failing inputs.  A view without a file name: [apply_settings]
    raises the [TypeError] of [os.path.join] and the id is not
    registered.  A view whose file name is the empty string: the walk
    starts at the parent of the working directory, and what it finds is
    written. *)
Theorem apply_settings_without_file_name :
  (forall fuel,
     apply_settings fuel precedence_host unsaved_view fresh_state
     = Some ([], fresh_state, Raise no_path_error))
  /\
  exists tr st',
    apply_settings 3 precedence_host empty_path_view fresh_state
    = Some (tr, st', Ok tt) /\
    probes tr = ["/home/Python.sublime-settings"; "/home/Preferences.sublime-settings";
                 "//Python.sublime-settings"; "//Preferences.sublime-settings"] /\
    writes tr = [(4%Z, "b", JNum 3); (4%Z, "c", JNum 3)].
Proof.
  split; [intros fuel; reflexivity|].
  eexists _, _. split; [vm_compute; reflexivity|]. split; reflexivity.
Qed.










(** C9. With an absolute working directory the walk ends from every
    starting directory: iterating [parent_dir] reaches the empty string,
    the list of visited directories is finite, and the loop of
    [view_settings] ends for every bound at least its length.  From the
    root the walk visits the root and nothing else. *)
Theorem ancestor_walk_terminates env :
  PosixPath.isabs (getcwd env) = true ->
  (forall start,
     exists dirs,
       Nat.iter (length dirs) (parent_dir env) start = "" /\
       forall fuel, length dirs <= fuel ->
         ancestors fuel env start = Some dirs /\
         forall syntax_name settings st,
           exists tr r,
             walk_loop fuel env syntax_name settings start st = Some (tr, st, r))
  /\
  parent_dir env "/" = "" /\
  forall fuel, ancestors (S fuel) env "/" = Some ["/"].
Proof.
  intros Hcwd. split; [|split; reflexivity].
  intros start. destruct (ancestors_terminate env Hcwd start) as (dirs & Hdirs).
  exists dirs. split.
  - now apply (ancestors_iter env (length dirs) start dirs), Hdirs.
  - intros fuel Hle. split; [auto|]. intros syntax_name settings st.
    destruct (walk_loop_run env syntax_name fuel settings start dirs st (Hdirs _ Hle))
      as (tr & r & Hrun & _).
    eauto.
Qed.

Lemma ancestor_walk_terminates_witness :
  PosixPath.isabs (getcwd precedence_host) = true /\
  exists dirs,
    Nat.iter (length dirs) (parent_dir precedence_host) "/proj/src" = "" /\
    forall fuel, length dirs <= fuel ->
      ancestors fuel precedence_host "/proj/src" = Some dirs /\
      forall syntax_name settings st,
        exists tr r,
          walk_loop fuel precedence_host syntax_name settings "/proj/src" st
          = Some (tr, st, r).
Proof.
  split; [reflexivity|].
  exact (proj1 (ancestor_walk_terminates precedence_host eq_refl) "/proj/src").
Defined.

(** C10. [configured_views] never holds an id twice, in any state the
    plugin can reach; so one [on_close] of a view leaves its id
    unregistered. *)
Theorem registry_has_no_duplicates env st :
  reachable env st ->
  NoDup (configured_views st) /\
  forall view,
    exists st',
      on_close view st = Some ([], st', Ok tt) /\
      ~ In (View.id view) (configured_views st').
Proof.
  intros Hreach. pose proof (reachable_registry_ok _ _ Hreach) as Hok.
  split; [exact Hok|]. intros view.
  destruct (on_close_unregisters view st Hok) as (st' & Hrun & Hout & _).
  eauto.
Qed.

Lemma registry_has_no_duplicates_witness :
  exists tr st,
    on_load 3 precedence_host main_py fresh_state = Some (tr, st, Ok tt) /\
    configured_views st = [1%Z] /\
    NoDup (configured_views st) /\
    forall view,
      exists st',
        on_close view st = Some ([], st', Ok tt) /\
        ~ In (View.id view) (configured_views st').
Proof.
  eexists _, _. split; [vm_compute; reflexivity|]. split; [reflexivity|].
  apply (registry_has_no_duplicates precedence_host).
  eapply (reachable_hook precedence_host fresh_state 3 (OnLoad main_py)).
  - apply reachable_start.
  - vm_compute. reflexivity.
Defined.

(** ** Further properties of the code *)

(** *** More on paths *)

Lemma append_empty_r s : (s ++ "")%string = s.
Proof. induction s as [|a s IH]; simpl; [reflexivity | now rewrite IH]. Qed.

(** A normalised absolute path is a fixed point of [normpath]. *)
Lemma normpath_render initial comps :
  (initial = 1 \/ initial = 2) -> Forall plain comps ->
  PosixPath.normpath (render initial comps) = render initial comps.
Proof.
  intros Hi Hall. destruct comps as [|c l].
  - destruct Hi as [-> | ->]; reflexivity.
  - unfold PosixPath.normpath.
    pose proof (render_not_empty initial (c :: l) ltac:(lia)) as Hne.
    apply String.eqb_neq in Hne. rewrite Hne. cbv zeta.
    inversion Hall as [|? ? Hc Hl]; subst.
    pose proof (initial_slashes_render initial c l "" Hi Hc) as Hs.
    rewrite append_empty_r in Hs. rewrite Hs.
    rewrite (split_render initial c l Hall), fold_norm_step_empties.
    rewrite (fold_norm_step_plain initial (c :: l) [] Hall). simpl app.
    fold (render initial (c :: l)). now rewrite Hne.
Qed.









(** X1. The parent of a normalised absolute path is the path without its
    last component. *)
Theorem parent_dir_drops_last_component env initial comps c :
  (initial = 1 \/ initial = 2) -> Forall plain (comps ++ [c]) ->
  parent_dir env (Str.repeat_sep initial ++ Str.join (comps ++ [c]))
  = (Str.repeat_sep initial ++ Str.join comps)%string.
Proof.
  intros Hi Hall. fold (render initial (comps ++ [c])). fold (render initial comps).
  destruct (comps ++ [c]) as [|c' l'] eqn:E; [now destruct comps|].
  rewrite parent_dir_render by assumption. now rewrite <- E, removelast_last.
Qed.

(** X2. With an absolute working directory, [parent_dir] answers the
    empty string exactly for the two normalised spellings of the root,
    ["/"] and ["//"]; another spelling of the root, such as ["/."], gets
    ["/"]. *)
Theorem parent_dir_empty_iff_root env s :
  PosixPath.isabs (getcwd env) = true ->
  (parent_dir env s = "" <-> s = "/" \/ s = "//").
Proof.
  intros Hcwd. split.
  - intros H.
    assert (Ha : exists initial comps,
               (initial = 1 \/ initial = 2) /\ Forall plain comps /\
               PosixPath.abspath (getcwd env) (PosixPath.join s PosixPath.pardir)
               = render initial comps).
    { unfold PosixPath.abspath.
      destruct (PosixPath.isabs (PosixPath.join s PosixPath.pardir)) eqn:Habs;
        apply normpath_abs; [assumption | now apply isabs_join]. }
    destruct Ha as (initial & comps & Hi & Hall & Ha).
    pose proof H as H'. unfold parent_dir in H'. rewrite Ha in H'.
    destruct (String.eqb (render initial comps) s) eqn:E.
    + apply String.eqb_eq in E. subst s. destruct comps as [|c l].
      * destruct Hi as [-> | ->]; auto.
      * rewrite parent_dir_render in H by assumption.
        exfalso. revert H. apply render_not_empty. lia.
    + exfalso. revert H'. apply render_not_empty. lia.
  - intros [-> | ->]; reflexivity.
Qed.

(** X3. A non-empty answer of [parent_dir] is absolute and normalised:
    [abspath] leaves it as it is, and it ends with a slash only when it
    is a root. *)
Theorem parent_dir_absolute_normalised env s :
  PosixPath.isabs (getcwd env) = true ->
  parent_dir env s <> "" ->
  PosixPath.isabs (parent_dir env s) = true /\
  PosixPath.abspath (getcwd env) (parent_dir env s) = parent_dir env s /\
  (Str.endswith_sep (parent_dir env s) = true ->
   parent_dir env s = "/" \/ parent_dir env s = "//").
Proof.
  intros Hcwd Hne.
  destruct (parent_dir_shape env Hcwd s) as [E | (initial & comps & Hi & Hall & E)];
    [contradiction|].
  rewrite E.
  assert (Habs : PosixPath.isabs (render initial comps) = true)
    by (destruct Hi as [-> | ->]; reflexivity).
  split; [exact Habs|]. split.
  - unfold PosixPath.abspath. rewrite Habs. now apply normpath_render.
  - destruct comps as [|c l]; [destruct Hi as [-> | ->]; auto|].
    rewrite endswith_sep_render by assumption. discriminate.
Qed.


(** *** The loader reads and never writes *)

Lemma writes_app t1 t2 : writes (t1 ++ t2) = writes t1 ++ writes t2.
Proof. apply flat_map_app. Qed.

Lemma writes_file_trace env file : writes (file_trace env file) = [].
Proof.
  unfold file_trace. destruct (file_at env file); simpl; try reflexivity.
  destruct (decode_value env content); reflexivity.
Qed.

Lemma for_settings_files_quiet env files : forall settings st tr st' r,
  for_settings_files env files settings st = Some (tr, st', r) ->
  st' = st /\ writes tr = [].
Proof.
  induction files as [|file rest IH]; intros settings st tr st' r H.
  - inversion H; subst. auto.
  - cbn [for_settings_files] in H. unfold bind at 1 in H.
    rewrite file_settings_run in H.
    destruct (loaded env file) as [v|e].
    2:{ split; [congruence|].
        replace tr with (file_trace env file) by congruence.
        apply writes_file_trace. }
    unfold bind at 1, update_method in H.
    destruct v as [| | | | |d];
      try (cbn [raise] in H; split; [congruence|];
           replace tr with (file_trace env file ++ []) by congruence;
           rewrite app_nil_r; apply writes_file_trace).
    cbn [ret] in H.
    destruct (for_settings_files env rest (Dict.update d settings) st)
      as [[[tr2 st2] r2]|] eqn:E; [|discriminate].
    destruct (IH _ _ _ _ _ E) as (-> & Hw).
    split; [congruence|].
    replace tr with (file_trace env file ++ [] ++ tr2) by congruence.
    now rewrite !writes_app, writes_file_trace, Hw.
Qed.

Lemma walk_loop_quiet env syntax_name : forall fuel settings settings_dir st tr st' r,
  walk_loop fuel env syntax_name settings settings_dir st = Some (tr, st', r) ->
  st' = st /\ writes tr = [].
Proof.
  induction fuel as [|fuel IH]; intros settings settings_dir st tr st' r H;
    [discriminate|].
  cbn [walk_loop] in H. unfold bind at 1 in H.
  destruct (for_settings_files env _ settings st) as [[[tr1 st1] r1]|] eqn:E1;
    [|discriminate].
  destruct (for_settings_files_quiet _ _ _ _ _ _ _ E1) as (-> & Hw1).
  destruct r1 as [s1|e]; [|inversion H; subst; auto].
  destruct (String.eqb (parent_dir env settings_dir) "").
  - inversion H; subst. rewrite app_nil_r. auto.
  - destruct (walk_loop fuel env syntax_name s1 _ st) as [[[tr2 st2] r2]|] eqn:E2;
      [|discriminate].
    destruct (IH _ _ _ _ _ _ E2) as (-> & Hw2). inversion H; subst.
    split; [reflexivity|]. now rewrite writes_app, Hw1, Hw2.
Qed.

Lemma view_settings_quiet fuel env view st tr st' r :
  view_settings fuel env view st = Some (tr, st', r) ->
  st' = st /\ writes tr = [].
Proof.
  rewrite view_settings_unfold.
  destruct (Dict.get "syntax" (stores st (View.id view))) as [[]|];
    try solve [intros H; inversion H; subst; auto].
  destruct (View.file_name view); [|intros H; inversion H; subst; auto].
  apply walk_loop_quiet.
Qed.

(** X7. [view_settings] only reads: however it ends, the registry and
    the settings of every view are as before and nothing was written. *)
Theorem view_settings_reads_only fuel env view st tr st' r :
  view_settings fuel env view st = Some (tr, st', r) ->
  st' = st /\ writes tr = [].
Proof.
  rewrite view_settings_unfold.
  destruct (Dict.get "syntax" (stores st (View.id view))) as [[]|];
    try solve [intros H; inversion H; subst; auto].
  destruct (View.file_name view); [|intros H; inversion H; subst; auto].
  apply walk_loop_quiet.
Qed.

Lemma view_settings_reads_only_witness :
  exists tr st' r,
    view_settings 3 precedence_host main_py fresh_state = Some (tr, st', r) /\
    st' = fresh_state /\ writes tr = [].
Proof.
  eexists _, _, _. split; [vm_compute; reflexivity|].
  eapply (view_settings_reads_only 3 precedence_host main_py fresh_state).
  vm_compute. reflexivity.
Defined.



(** *** The name of the syntax *)

Lemma occurs_cons c a s : occurs c (String a s) = (Ascii.eqb c a || occurs c s)%bool.
Proof. reflexivity. Qed.

Lemma occurs_app c x y : occurs c (x ++ y) = (occurs c x || occurs c y)%bool.
Proof.
  induction x as [|a x IH]; [reflexivity|].
  change ((String a x ++ y)%string) with (String a (x ++ y)).
  rewrite !occurs_cons, IH. now rewrite orb_assoc.
Qed.

Lemma after_last_absent c s : occurs c s = false -> Str.after_last c s = s.
Proof.
  destruct s as [|a s]; [reflexivity|]. rewrite occurs_cons. intros H.
  apply orb_false_iff in H as (Ha & Hs). cbn [Str.after_last].
  fold (occurs c s). rewrite Hs. rewrite Ascii.eqb_sym in Ha. now rewrite Ha.
Qed.

Lemma after_last_app c x t :
  occurs c t = false -> Str.after_last c (x ++ String c t) = t.
Proof.
  intros Ht. induction x as [|a x IH].
  - cbn [append Str.after_last]. fold (occurs c t). now rewrite Ht, Ascii.eqb_refl.
  - change ((String a x ++ String c t)%string) with (String a (x ++ String c t)).
    cbn [Str.after_last]. fold (occurs c (x ++ String c t)).
    rewrite occurs_app, occurs_cons, Ascii.eqb_refl, orb_true_r. exact IH.
Qed.

Lemma rfind_absent c s : occurs c s = false -> Str.rfind c s = None.
Proof.
  induction s as [|a s IH]; [reflexivity|]. rewrite occurs_cons. intros H.
  apply orb_false_iff in H as (Ha & Hs). cbn [Str.rfind]. rewrite (IH Hs).
  rewrite Ascii.eqb_sym in Ha. now rewrite Ha.
Qed.

Lemma rfind_app c x t :
  occurs c t = false -> Str.rfind c (x ++ String c t) = Some (String.length x).
Proof.
  intros Ht. induction x as [|a x IH].
  - cbn [append Str.rfind]. now rewrite (rfind_absent c t Ht), Ascii.eqb_refl.
  - change ((String a x ++ String c t)%string) with (String a (x ++ String c t)).
    cbn [Str.rfind]. now rewrite IH.
Qed.

Lemma take_app x y : Str.take (String.length x) (x ++ y) = x.
Proof. induction x as [|a x IH]; simpl; [now destruct y | now rewrite IH]. Qed.

(** X6. The syntax name is the base name of the syntax file without its
    last extension; the directories and the extension do not matter. *)
Theorem syntax_name_is_stem directory stem extension :
  occurs "/" stem = false ->
  Str.has_other "." (String.length stem) stem = true ->
  occurs "/" extension = false ->
  occurs "." extension = false ->
  PosixPath.splitext_root
    (PosixPath.basename (directory ++ "/" ++ stem ++ "." ++ extension))
  = stem /\
  PosixPath.splitext_root (PosixPath.basename (stem ++ "." ++ extension)) = stem /\
  forall settings_dir,
    settings_files settings_dir
      (PosixPath.splitext_root
         (PosixPath.basename (directory ++ "/" ++ stem ++ "." ++ extension)))
    = [ (settings_dir ++ "/" ++ stem ++ ".sublime-settings")%string;
        (settings_dir ++ "/Preferences.sublime-settings")%string ].
Proof.
  intros Hs Hd He1 He2. cbn [append].
  assert (Hfile : occurs "/" (stem ++ String "." extension) = false).
  { rewrite occurs_app, occurs_cons, Hs, He1. reflexivity. }
  assert (Hroot : PosixPath.splitext_root (stem ++ String "." extension) = stem).
  { unfold PosixPath.splitext_root.
    rewrite (rfind_app "." stem extension He2).
    rewrite (rfind_absent "/" _ Hfile).
    rewrite Nat.sub_0_r, take_app, (after_last_absent "/" stem Hs), Hd.
    reflexivity. }
  assert (Hbase : PosixPath.basename (directory ++ String "/" (stem ++ String "." extension))
                  = (stem ++ String "." extension)%string).
  { unfold PosixPath.basename. now apply after_last_app. }
  split; [now rewrite Hbase|]. split.
  - unfold PosixPath.basename. now rewrite (after_last_absent "/" _ Hfile).
  - intros settings_dir. now rewrite Hbase, Hroot.
Qed.

Lemma syntax_name_is_stem_witness :
  PosixPath.splitext_root
    (PosixPath.basename ("Packages/Python" ++ "/" ++ "Python.3" ++ "." ++ "sublime-syntax"))
  = "Python.3".
Proof.
  apply (syntax_name_is_stem "Packages/Python" "Python.3" "sublime-syntax");
    reflexivity.
Defined.

(** *** Applying *)

(** A loop that came to its end has walked the whole list of
    directories. *)
Lemma walk_loop_returned env syntax_name : forall fuel settings settings_dir st tr st' s,
  walk_loop fuel env syntax_name settings settings_dir st = Some (tr, st', Ok s) ->
  exists dirs, ancestors fuel env settings_dir = Some dirs.
Proof.
  induction fuel as [|fuel IH]; intros settings settings_dir st tr st' s H;
    [discriminate|].
  cbn [walk_loop] in H. unfold bind at 1 in H. cbn [ancestors].
  destruct (for_settings_files env _ settings st) as [[[tr1 st1] [s1|e]]|];
    try discriminate.
  destruct (String.eqb (parent_dir env settings_dir) ""); [eauto|].
  destruct (walk_loop fuel env syntax_name s1 _ st1) as [[[tr2 st2] [s2|e]]|] eqn:E;
    try discriminate.
  destruct (IH _ _ _ _ _ _ E) as (dirs & ->). eauto.
Qed.

Lemma view_settings_wf fuel env view st tr st' resolved :
  host_ok env ->
  view_settings fuel env view st = Some (tr, st', Ok resolved) ->
  wf_dict resolved.
Proof.
  intros Hok. rewrite view_settings_unfold.
  destruct (Dict.get "syntax" (stores st (View.id view))) as [[]|]; try discriminate.
  destruct (View.file_name view) as [path|]; [|discriminate].
  intros H. destruct (walk_loop_returned _ _ _ _ _ _ _ _ _ H) as (dirs & Hd).
  destruct (walk_loop_run env (PosixPath.splitext_root (PosixPath.basename s))
              fuel [] _ dirs st Hd) as (tr' & r' & Hrun & _ & _ & Hres).
  rewrite Hrun in H. inversion H; subst.
  destruct (Hres resolved eq_refl) as (_ & Hwf).
  now apply Hwf; [|constructor].
Qed.

(** X9. A first [apply_settings] that returns lays the resolved settings
    over the view's own: it sets each resolved key once, in the order of
    the mapping, leaves every other key of that view and all settings of
    other views alone, and puts the id at the end of the registry. *)
Theorem apply_settings_overlays fuel env view st tr st' :
  host_ok env ->
  ~ In (View.id view) (configured_views st) ->
  apply_settings fuel env view st = Some (tr, st', Ok tt) ->
  exists tr0 resolved,
    view_settings fuel env view st = Some (tr0, st, Ok resolved) /\
    tr = tr0 ++ set_events (View.id view) resolved /\
    writes tr = map (fun kv => (View.id view, fst kv, snd kv)) resolved /\
    NoDup (map fst resolved) /\
    configured_views st' = configured_views st ++ [View.id view] /\
    (forall k,
       Dict.get k (stores st' (View.id view))
       = match Dict.get k resolved with
         | Some v => Some v
         | None => Dict.get k (stores st (View.id view))
         end) /\
    forall j, j <> View.id view -> stores st' j = stores st j.
Proof.
  intros Hok Hnew H.
  assert (Hin : list_in (View.id view) (configured_views st) = false).
  { destruct (list_in _ _) eqn:E; [|reflexivity]. apply list_in_spec in E. contradiction. }
  pose proof (apply_settings_fresh fuel env view st Hin) as Hf.
  destruct (view_settings fuel env view st) as [[[tr0 st0] [resolved|e]]|] eqn:Hv;
    [| congruence | congruence].
  destruct (view_settings_quiet _ _ _ _ _ _ _ Hv) as (-> & Hw0).
  pose proof (view_settings_wf _ _ _ _ _ _ _ Hok Hv) as Hwf.
  destruct Hf as (st2 & Hrun & Hcv & Hst & Hoth). rewrite Hrun in H.
  inversion H; subst tr st2.
  exists tr0, resolved.
  split; [reflexivity|]. split; [reflexivity|]. split; [|split; [exact Hwf|]].
  - rewrite writes_app, Hw0. unfold set_events, writes. clear.
    induction resolved as [|[k v] l IHl]; [reflexivity|]. cbn. f_equal. exact IHl.
  - split; [assumption|]. split; [|assumption].
    intros k. rewrite Hst. now apply get_update.
Qed.

Lemma apply_settings_overlays_witness :
  exists tr st' tr0 resolved,
    apply_settings 3 precedence_host main_py fresh_state = Some (tr, st', Ok tt) /\
    view_settings 3 precedence_host main_py fresh_state
    = Some (tr0, fresh_state, Ok resolved) /\
    configured_views st' = [1%Z] /\
    Dict.get "syntax" (stores st' 1%Z) = Dict.get "syntax" (stores fresh_state 1%Z) /\
    Dict.get "a" (stores st' 1%Z) = Some (JNum 1).
Proof.
  destruct (apply_settings 3 precedence_host main_py fresh_state)
    as [[[tr st'] [[]|e]]|] eqn:E; try (vm_compute in E; discriminate).
  destruct (apply_settings_overlays 3 precedence_host main_py fresh_state tr st'
              precedence_host_ok (fun x => x) E)
    as (tr0 & resolved & Hv & _ & _ & _ & Hcv & Hget & _).
  exists tr, st', tr0, resolved. repeat split; auto.
  - rewrite Hget. vm_compute in Hv. inversion Hv; subst. reflexivity.
  - rewrite Hget. vm_compute in Hv. inversion Hv; subst. reflexivity.
Defined.

(** X10. An [apply_settings] that raises has changed nothing: no setting
    was written and the id is not registered; the exception is the one
    of [view_settings]. *)
Theorem apply_settings_raises_without_effect fuel env view st tr st' e :
  apply_settings fuel env view st = Some (tr, st', Raise e) ->
  st' = st /\ writes tr = [] /\
  ~ In (View.id view) (configured_views st') /\
  view_settings fuel env view st = Some (tr, st, Raise e).
Proof.
  intros H. destruct (list_in (View.id view) (configured_views st)) eqn:Hin.
  - rewrite apply_settings_skip in H by assumption. discriminate.
  - pose proof (apply_settings_fresh fuel env view st Hin) as Hf.
    assert (Hno : ~ In (View.id view) (configured_views st)).
    { intros Hc. apply list_in_spec in Hc. congruence. }
    destruct (view_settings fuel env view st) as [[[tr0 st0] [resolved|e0]]|] eqn:Hv.
    + destruct Hf as (st2 & Hrun & _). congruence.
    + destruct (view_settings_quiet _ _ _ _ _ _ _ Hv) as (-> & Hw0).
      rewrite Hf in H. inversion H; subst. auto.
    + congruence.
Qed.

Lemma apply_settings_raises_without_effect_witness :
  apply_settings 3 locked_host proj_py fresh_state
  = Some ([IsFile "/proj/Python.sublime-settings";
           IsFile "/proj/Preferences.sublime-settings";
           Stdout (loading_line "/proj/Preferences.sublime-settings");
           OpenFile "/proj/Preferences.sublime-settings"],
          fresh_state, Raise (OSError "Permission denied")) /\
  ~ In 2%Z (configured_views fresh_state).
Proof.
  split; [vm_compute; reflexivity|].
  eapply (apply_settings_raises_without_effect 3 locked_host proj_py fresh_state).
  vm_compute. reflexivity.
Defined.

(** *** Start-up and closing *)

Lemma bind_ret_l {A B} (a : A) (k : A -> M B) st : bind (ret a) k st = k a st.
Proof. unfold bind, ret. now destruct (k a st) as [[[tr st'] r]|]. Qed.

Lemma bind_assoc {A B C} (m : M A) (f : A -> M B) (g : B -> M C) st :
  bind (bind m f) g st = bind m (fun a => bind (f a) g) st.
Proof.
  unfold bind. destruct (m st) as [[[tr1 st1] [a|e]]|]; try reflexivity.
  destruct (f a st1) as [[[tr2 st2] [b|e]]|]; try reflexivity.
  destruct (g b st2) as [[[tr3 st3] r]|]; [|reflexivity].
  now rewrite app_assoc.
Qed.

Lemma bind_ext {A B} (m : M A) (f g : A -> M B) st :
  (forall a s, f a s = g a s) -> bind m f st = bind m g st.
Proof.
  intros H. unfold bind. destruct (m st) as [[[tr1 st1] [a|e]]|]; try reflexivity.
  now rewrite H.
Qed.

Lemma for_views_app fuel env views1 views2 st :
  for_views fuel env (views1 ++ views2) st
  = bind (for_views fuel env views1) (fun _ => for_views fuel env views2) st.
Proof.
  revert st. induction views1 as [|v views1 IH]; intros st.
  - simpl app. cbn [for_views]. now rewrite bind_ret_l.
  - simpl app. cbn [for_views]. rewrite bind_assoc. apply bind_ext.
    intros _ s. apply IH.
Qed.

(** The windows are handled one after the other, as one list of views. *)
Lemma plugin_loaded_flat fuel env windows st :
  plugin_loaded fuel env windows st = for_views fuel env (concat windows) st.
Proof.
  revert st. induction windows as [|views windows IH]; intros st; [reflexivity|].
  cbn [plugin_loaded concat]. rewrite for_views_app. apply bind_ext.
  intros _ s. apply IH.
Qed.

Lemma apply_settings_registers fuel env view st tr st' :
  apply_settings fuel env view st = Some (tr, st', Ok tt) ->
  In (View.id view) (configured_views st').
Proof.
  intros H. destruct (list_in (View.id view) (configured_views st)) eqn:Hin.
  - rewrite apply_settings_skip in H by assumption. inversion H; subst.
    now apply list_in_spec.
  - destruct (apply_settings_registry _ _ _ _ _ _ _ H) as [Hcv | (_ & _ & Hcv)].
    + pose proof (apply_settings_fresh fuel env view st Hin) as Hf.
      destruct (view_settings fuel env view st) as [[[tr1 st1] [resolved|e]]|].
      * destruct Hf as (st2 & Hrun & Hcv' & _). rewrite Hrun in H.
        inversion H; subst. rewrite Hcv'. apply in_or_app. right. now left.
      * congruence.
      * congruence.
    + rewrite Hcv. apply in_or_app. right. now left.
Qed.

Lemma for_views_registry fuel env views : forall st tr st' r,
  for_views fuel env views st = Some (tr, st', r) ->
  incl (configured_views st) (configured_views st') /\
  (forall i, In i (configured_views st') ->
             In i (configured_views st) \/ In i (map View.id views)) /\
  (r = Ok tt -> forall v, In v views -> In (View.id v) (configured_views st')).
Proof.
  induction views as [|v views IH]; intros st tr st' r H.
  - inversion H; subst. repeat split; [apply incl_refl | auto | intros _ x []].
  - cbn [for_views] in H. unfold bind in H.
    destruct (apply_settings fuel env v st) as [[[tr1 st1] [[]|e]]|] eqn:E1;
      [| |discriminate].
    + destruct (for_views fuel env views st1) as [[[tr2 st2] r2]|] eqn:E2;
        [|discriminate].
      inversion H; subst. destruct (IH _ _ _ _ E2) as (Hinc & Hnew & Hall).
      pose proof (apply_settings_registers _ _ _ _ _ _ E1) as Hreg.
      destruct (apply_settings_registry _ _ _ _ _ _ _ E1) as [Hcv | (_ & _ & Hcv)].
      * rewrite Hcv in *. repeat split; auto.
        -- intros i Hi. destruct (Hnew i Hi); simpl; auto.
        -- intros Hr x [<-|Hx]; auto.
      * repeat split.
        -- intros i Hi. apply Hinc. rewrite Hcv. apply in_or_app. now left.
        -- intros i Hi. destruct (Hnew i Hi) as [H1|H1]; simpl; auto.
           rewrite Hcv in H1. apply in_app_or in H1 as [?|[<-|[]]]; auto.
        -- intros Hr x [<-|Hx]; auto.
    + inversion H; subst.
      destruct (apply_settings_registry _ _ _ _ _ _ _ E1) as [Hcv | (_ & Habs & _)];
        [|discriminate].
      rewrite Hcv. repeat split; [apply incl_refl | auto | discriminate].
Qed.

(** X11. [plugin_loaded] goes through the views of all windows in order.
    It never takes an id out of the registry, adds only ids of those
    views, and when it returns every one of them is registered. *)
Theorem plugin_loaded_registers_open_views fuel env windows st tr st' r :
  plugin_loaded fuel env windows st = Some (tr, st', r) ->
  for_views fuel env (concat windows) st = Some (tr, st', r) /\
  incl (configured_views st) (configured_views st') /\
  (forall i, In i (configured_views st') ->
             In i (configured_views st) \/ In i (map View.id (concat windows))) /\
  (r = Ok tt ->
   forall views v, In views windows -> In v views ->
                   In (View.id v) (configured_views st')).
Proof.
  intros H. rewrite plugin_loaded_flat in H. split; [exact H|].
  destruct (for_views_registry _ _ _ _ _ _ _ H) as (Hinc & Hnew & Hall).
  repeat split; auto.
  intros Hr views v Hw Hv. apply (Hall Hr). apply in_concat. eauto.
Qed.

Lemma plugin_loaded_registers_open_views_witness :
  exists tr st',
    plugin_loaded 3 precedence_host [[main_py]; [root_view; main_py]] fresh_state
    = Some (tr, st', Ok tt) /\
    configured_views st' = [1%Z; 5%Z] /\
    incl (configured_views fresh_state) (configured_views st').
Proof.
  eexists _, _. split; [vm_compute; reflexivity|]. split; [reflexivity|].
  eapply (plugin_loaded_registers_open_views 3 precedence_host
            [[main_py]; [root_view; main_py]] fresh_state).
  vm_compute. reflexivity.
Defined.

(** X12. In every state, also one with an id registered twice, [on_close]
    returns without an effect one could see, keeps all settings, and
    takes out one occurrence of the view's id, the first, and no other
    id. *)
Theorem on_close_removes_one_occurrence view st :
  exists st',
    on_close view st = Some ([], st', Ok tt) /\
    stores st' = stores st /\
    (forall i,
       count_occ Z.eq_dec (configured_views st') i
       = if Z.eq_dec i (View.id view)
         then Nat.pred (count_occ Z.eq_dec (configured_views st) i)
         else count_occ Z.eq_dec (configured_views st) i) /\
    exists before after,
      configured_views st' = before ++ after /\
      ~ In (View.id view) before /\
      (configured_views st = before ++ View.id view :: after \/
       configured_views st = before /\ after = []).
Proof.
  rewrite on_close_run. eexists. split; [reflexivity|].
  assert (Hrem : forall l,
            match list_remove (View.id view) l with
            | Some l' => exists before after,
                l' = before ++ after /\ ~ In (View.id view) before /\
                l = before ++ View.id view :: after
            | None => ~ In (View.id view) l
            end).
  { induction l as [|y l IH]; simpl; [tauto|].
    destruct (Z.eqb y (View.id view)) eqn:E.
    - apply Z.eqb_eq in E. subst y. exists [], l. simpl. tauto.
    - apply Z.eqb_neq in E. destruct (list_remove (View.id view) l) as [l'|].
      + destruct IH as (before & after & -> & Hb & ->).
        exists (y :: before), after. simpl. repeat split; auto.
        intros [?|?]; auto.
      + intros [?|?]; auto. }
  specialize (Hrem (configured_views st)).
  destruct (list_remove (View.id view) (configured_views st)) as [l'|];
    cbn [configured_views stores].
  - destruct Hrem as (before & after & -> & Hb & Hst). split; [reflexivity|]. split.
    + intros i. rewrite Hst, !count_occ_app. simpl.
      destruct (Z.eq_dec (View.id view) i) as [<-|Hne];
        destruct (Z.eq_dec _ _); try congruence; try lia.
    + exists before, after. auto.
  - split; [reflexivity|]. split.
    + intros i. destruct (Z.eq_dec i (View.id view)) as [->|]; [|reflexivity].
      now rewrite (proj1 (count_occ_not_In Z.eq_dec _ _) Hrem).
    + exists (configured_views st), []. rewrite app_nil_r. auto.
Qed.

(** *** The command *)

Lemma run_cases host env active_view :
  let '(events, (host', env')) := CreateUberSettingsCommand.run host env active_view in
  run_outcome host env active_view events host' env'.
Proof.
  unfold CreateUberSettingsCommand.run.
  destruct active_view as [view|]; [|apply run_no_file; auto].
  destruct (view_bool host view) eqn:Hb; cbn [negb];
    [|apply run_no_file; right; eauto].
  destruct (View.file_name view) as [file_name|] eqn:Hf;
    [|apply run_no_file; right; eauto 6].
  destruct (String.eqb file_name "") eqn:He.
  { apply String.eqb_eq in He. subst. apply run_no_file. right. eauto 6. }
  apply String.eqb_neq in He.
  destruct (String.eqb (parent_dir env file_name) "") eqn:Hp.
  { apply String.eqb_eq in Hp. now apply (run_no_directory _ _ _ view file_name). }
  apply String.eqb_neq in Hp.
  fold (settings_file_of env file_name). fold (user_settings_path host).
  destruct (path_exists host (settings_file_of env file_name)) eqn:Hx.
  { now apply (run_exists _ _ _ view file_name). }
  destruct (path_exists host (user_settings_path host)) eqn:Hu.
  - destruct (open_for_reading env (user_settings_path host)) as [source|e] eqn:Hr.
    + destruct (open_for_writing host (settings_file_of env file_name)) as [e|] eqn:Hw.
      * pose proof (run_failed host env (Some view) view file_name e
                      eq_refl Hb Hf He Hp Hx) as H.
        rewrite Hu in H. apply H. left. split; [reflexivity|]. right. eauto.
      * destruct source as [content|e].
        -- now apply (run_copied _ _ _ view file_name content).
        -- now apply (run_left_empty _ _ _ view file_name e).
    + pose proof (run_failed host env (Some view) view file_name e
                    eq_refl Hb Hf He Hp Hx) as H.
      rewrite Hu in H. apply H. left. auto.
  - destruct (open_for_writing host (settings_file_of env file_name)) as [e|] eqn:Hw.
    + pose proof (run_failed host env (Some view) view file_name e
                    eq_refl Hb Hf He Hp Hx) as H.
      rewrite Hu in H. apply H. right. auto.
    + now apply (run_default _ _ _ view file_name).
Qed.

Lemma run_inv host env active_view events host' env' :
  CreateUberSettingsCommand.run host env active_view = (events, (host', env')) ->
  run_outcome host env active_view events host' env'.
Proof.
  intros H. pose proof (run_cases host env active_view) as Hc.
  now rewrite H in Hc.
Qed.

Lemma write_file_same env path content :
  file_at (write_file env path content) path = Text content.
Proof. cbn. now rewrite String.eqb_refl. Qed.

Lemma write_file_other env path content p :
  p <> path -> file_at (write_file env path content) p = file_at env p.
Proof. intros H. cbn. apply String.eqb_neq in H. now rewrite H. Qed.

(** X14. The command never touches a path that exists: whatever happens,
    such a path reads as before; the working directory and the decoder
    are the same, and no path stops existing. *)
Theorem run_keeps_existing_files host env active_view p :
  path_exists host p = true ->
  let '(events, (host', env')) := CreateUberSettingsCommand.run host env active_view in
  file_at env' p = file_at env p /\
  path_exists host' p = true /\
  getcwd env' = getcwd env.
Proof.
  intros Hp.
  destruct (CreateUberSettingsCommand.run host env active_view)
    as [events [host' env']] eqn:H.
  apply run_inv in H.
  assert (Hne : forall f, path_exists host f = false -> p <> f) by (intros f Hf ->; congruence).
  destruct H; repeat split; auto;
    try (apply write_file_other; auto);
    cbn; rewrite Hp; apply orb_true_r.
Qed.

Lemma run_keeps_existing_files_witness :
  let '(events, (host', env')) :=
    CreateUberSettingsCommand.run user_prefs_host user_prefs_env (Some main_py) in
  file_at env' (user_settings_path user_prefs_host)
  = file_at user_prefs_env (user_settings_path user_prefs_host) /\
  path_exists host' (user_settings_path user_prefs_host) = true /\
  getcwd env' = getcwd user_prefs_env.
Proof.
  exact (run_keeps_existing_files user_prefs_host user_prefs_env (Some main_py)
           (user_settings_path user_prefs_host) eq_refl).
Defined.

(** X13. The command does nothing but complain when there is no view, the
    view is not valid or has no file name; and, the working directory
    being absolute, it cannot determine the project directory exactly
    when the file name is a spelling of the root. *)
Theorem run_needs_a_file_in_a_directory host env active_view :
  PosixPath.isabs (getcwd env) = true ->
  let result := CreateUberSettingsCommand.run host env active_view in
  (fst result = [ErrorMessage "No file is currently open!"] <->
   (active_view = None \/
    exists view, active_view = Some view /\
      (view_bool host view = false \/ View.file_name view = None \/
       View.file_name view = Some ""))) /\
  (fst result = [ErrorMessage "Could not determine project directory!"] <->
   exists view, active_view = Some view /\ view_bool host view = true /\
     (View.file_name view = Some "/" \/ View.file_name view = Some "//")) /\
  (fst result = [ErrorMessage "No file is currently open!"] \/
   fst result = [ErrorMessage "Could not determine project directory!"] ->
   snd result = (host, env)).
Proof.
  intros Hcwd result.
  destruct (CreateUberSettingsCommand.run host env active_view)
    as [events [host' env']] eqn:H.
  subst result. cbn [fst snd].
  apply run_inv in H.
  destruct H as [Hno | view f Ha Hb Hf Hne Hp | view f Ha Hb Hf Hne Hp Hx
                 | view f e Ha Hb Hf Hne Hp Hx Hw | view f e Ha Hb Hf Hne Hp Hx Hu Hr Hw
                 | view f c Ha Hb Hf Hne Hp Hx Hu Hr Hw | view f Ha Hb Hf Hne Hp Hx Hu Hw].
  - split; [tauto|]. split; [|auto]. split; [discriminate|].
    intros (view & Ha & Hb & Hf).
    destruct Hno as [-> | (v & Hv & Hcase)]; [discriminate|].
    rewrite Ha in Hv. inversion Hv; subst v.
    destruct Hcase as [? | [? | ?]]; destruct Hf; congruence.
  - apply (parent_dir_empty_root env f Hcwd) in Hp.
    split; [|split; [|auto]].
    + split; [discriminate|]. intros [-> | (v & Hv & Hcase)]; [discriminate|].
      rewrite Ha in Hv. inversion Hv; subst v.
      destruct Hcase as [? | [? | ?]]; congruence.
    + split; [|reflexivity]. intros _. exists view.
      destruct Hp as [-> | ->]; auto.
  - assert (Hroot : ~ (f = "/" \/ f = "//"))
      by (intros Hr; apply (parent_dir_empty_root env f Hcwd) in Hr; contradiction).
    split; [|split].
    + split; [discriminate|]. intros [-> | (v & Hv & Hcase)]; [discriminate|].
      rewrite Ha in Hv. inversion Hv; subst v.
      destruct Hcase as [? | [? | ?]]; congruence.
    + split; [discriminate|]. intros (v & Hv & _ & Hcase).
      rewrite Ha in Hv. inversion Hv; subst v.
      exfalso. apply Hroot. destruct Hcase; [left | right]; congruence.
    + intros [?|?]; discriminate.
  - destruct (path_exists host (user_settings_path host));
      (split; [split; [discriminate|]|split; [split; [discriminate|]|intros [?|?]; discriminate]]).
    all: try (intros [-> | (v & Hv & Hcase)]; [discriminate|];
              rewrite Ha in Hv; inversion Hv; subst v;
              destruct Hcase as [? | [? | ?]]; congruence).
    all: intros (v & Hv & _ & Hcase); rewrite Ha in Hv; inversion Hv; subst v;
      exfalso; apply Hp; apply (parent_dir_empty_root env f Hcwd);
      destruct Hcase; [left | right]; congruence.
  - split; [split; [discriminate|]|split; [split; [discriminate|]|intros [?|?]; discriminate]].
    + intros [-> | (v & Hv & Hcase)]; [discriminate|].
      rewrite Ha in Hv; inversion Hv; subst v.
      destruct Hcase as [? | [? | ?]]; congruence.
    + intros (v & Hv & _ & Hcase); rewrite Ha in Hv; inversion Hv; subst v.
      exfalso; apply Hp; apply (parent_dir_empty_root env f Hcwd).
      destruct Hcase; [left | right]; congruence.
  - split; [split; [discriminate|]|split; [split; [discriminate|]|intros [?|?]; discriminate]].
    + intros [-> | (v & Hv & Hcase)]; [discriminate|].
      rewrite Ha in Hv; inversion Hv; subst v.
      destruct Hcase as [? | [? | ?]]; congruence.
    + intros (v & Hv & _ & Hcase); rewrite Ha in Hv; inversion Hv; subst v.
      exfalso; apply Hp; apply (parent_dir_empty_root env f Hcwd).
      destruct Hcase; [left | right]; congruence.
  - split; [split; [discriminate|]|split; [split; [discriminate|]|intros [?|?]; discriminate]].
    + intros [-> | (v & Hv & Hcase)]; [discriminate|].
      rewrite Ha in Hv; inversion Hv; subst v.
      destruct Hcase as [? | [? | ?]]; congruence.
    + intros (v & Hv & _ & Hcase); rewrite Ha in Hv; inversion Hv; subst v.
      exfalso; apply Hp; apply (parent_dir_empty_root env f Hcwd).
      destruct Hcase; [left | right]; congruence.
Qed.

(** X15. When the command opens a file in the window, that file is
    [Preferences.sublime-settings] in the directory of the view's file,
    it did not exist before, and it holds the text of the user's
    [Preferences.sublime-settings] when that exists and the default text
    otherwise; both dialogs name it. *)
Theorem run_creates_the_settings_file host env active_view events host' env' f :
  CreateUberSettingsCommand.run host env active_view = (events, (host', env')) ->
  In (WindowOpenFile f) events ->
  exists view file_name,
    active_view = Some view /\ View.file_name view = Some file_name /\
    f = PosixPath.join (parent_dir env file_name) "Preferences.sublime-settings" /\
    path_exists host f = false /\
    path_exists host' f = true /\
    ((path_exists host (user_settings_path host) = true /\
      events = [MessageDialog ("Created settings file at: " ++ f); WindowOpenFile f] /\
      exists content,
        file_at env (user_settings_path host) = Text content /\
        file_at env' f = Text content)
     \/
     (path_exists host (user_settings_path host) = false /\
      events = [MessageDialog ("Created default settings file at: " ++ f);
                WindowOpenFile f] /\
      file_at env' f = Text (CreateUberSettingsCommand.default_text host))).
Proof.
  intros H Hin. apply run_inv in H.
  destruct H as [Hno | view fn Ha Hb Hf Hne Hp | view fn Ha Hb Hf Hne Hp Hx
                 | view fn e Ha Hb Hf Hne Hp Hx Hw | view fn e Ha Hb Hf Hne Hp Hx Hu Hr Hw
                 | view fn c Ha Hb Hf Hne Hp Hx Hu Hr Hw | view fn Ha Hb Hf Hne Hp Hx Hu Hw];
    simpl in Hin;
    try (destruct Hin as [Hin|[]]; discriminate);
    try (destruct Hin as [Hin|[Hin|[]]]; try discriminate; inversion Hin; subst f).
  - exists view, fn. repeat split; auto.
    + cbn. now rewrite String.eqb_refl.
    + left. repeat split; auto. exists c. split; [|apply write_file_same].
      unfold open_for_reading in Hr.
      destruct (file_at env (user_settings_path host)); congruence.
  - exists view, fn. repeat split; auto.
    + cbn. now rewrite String.eqb_refl.
    + right. repeat split; auto. apply write_file_same.
Qed.

Lemma run_creates_the_settings_file_witness :
  exists events host' env',
    CreateUberSettingsCommand.run user_prefs_host user_prefs_env (Some main_py)
    = (events, (host', env')) /\
    file_at env' "/proj/src/Preferences.sublime-settings" = Text "user prefs" /\
    path_exists user_prefs_host "/proj/src/Preferences.sublime-settings" = false.
Proof.
  destruct (CreateUberSettingsCommand.run user_prefs_host user_prefs_env (Some main_py))
    as [events [host' env']] eqn:E.
  exists events, host', env'. split; [reflexivity|].
  destruct (run_creates_the_settings_file user_prefs_host user_prefs_env (Some main_py)
              events host' env' "/proj/src/Preferences.sublime-settings" E)
    as (view & fn & Ha & Hf & Hfile & Hx & _ & [(_ & _ & c & Hc & Hnew) | (Hu & _)]).
  - vm_compute in E. inversion E; subst. simpl. auto.
  - split; [|exact Hx]. rewrite Hnew. f_equal.
    vm_compute in Hc. now inversion Hc.
  - vm_compute in Hu. discriminate.
Defined.

Lemma run_when_exists host env view file_name :
  view_bool host view = true ->
  View.file_name view = Some file_name -> file_name <> "" ->
  parent_dir env file_name <> "" ->
  path_exists host (settings_file_of env file_name) = true ->
  CreateUberSettingsCommand.run host env (Some view)
  = ([MessageDialog ("Settings file already exists at: "
                     ++ settings_file_of env file_name)], (host, env)).
Proof.
  intros Hb Hf Hne Hp Hx. apply String.eqb_neq in Hne, Hp.
  unfold CreateUberSettingsCommand.run. rewrite Hb, Hf, Hne, Hp. cbn [negb].
  fold (settings_file_of env file_name). now rewrite Hx.
Qed.

Lemma run_after_creation host env view file_name content :
  view_bool host view = true ->
  View.file_name view = Some file_name -> file_name <> "" ->
  parent_dir env file_name <> "" ->
  CreateUberSettingsCommand.run
    (created host (settings_file_of env file_name))
    (write_file env (settings_file_of env file_name) content) (Some view)
  = ([MessageDialog ("Settings file already exists at: "
                     ++ settings_file_of env file_name)],
     (created host (settings_file_of env file_name),
      write_file env (settings_file_of env file_name) content)).
Proof.
  intros Hb Hf Hne Hp.
  apply (run_when_exists (created host (settings_file_of env file_name))
           (write_file env (settings_file_of env file_name) content) view file_name);
    auto.
  change (settings_file_of (write_file env (settings_file_of env file_name) content)
            file_name) with (settings_file_of env file_name).
  cbn [path_exists created]. now rewrite String.eqb_refl.
Qed.

(** X17. Once a run has made the settings file exist, filled or empty,
    the next run for the same view only says that it exists and changes
    nothing. *)
Theorem run_again_is_refused host env active_view events host' env' p :
  CreateUberSettingsCommand.run host env active_view = (events, (host', env')) ->
  path_exists host p = false ->
  path_exists host' p = true ->
  CreateUberSettingsCommand.run host' env' active_view
  = ([MessageDialog ("Settings file already exists at: " ++ p)], (host', env')).
Proof.
  intros H Hbefore Hafter. apply run_inv in H.
  assert (Hp : forall sf, path_exists (created host sf) p = true -> p = sf).
  { intros sf Hc. cbn in Hc. rewrite Hbefore, orb_false_r in Hc.
    now apply String.eqb_eq. }
  destruct H as [Hno | view fn Ha Hb Hf Hne Hd | view fn Ha Hb Hf Hne Hd Hx
                 | view fn e Ha Hb Hf Hne Hd Hx Hw | view fn e Ha Hb Hf Hne Hd Hx Hu Hr Hw
                 | view fn c Ha Hb Hf Hne Hd Hx Hu Hr Hw | view fn Ha Hb Hf Hne Hd Hx Hu Hw];
    try congruence;
    apply Hp in Hafter; subst p active_view; now apply run_after_creation.
Qed.

Lemma run_again_is_refused_witness :
  exists events host' env',
    CreateUberSettingsCommand.run user_prefs_host user_prefs_env (Some main_py)
    = (events, (host', env')) /\
    CreateUberSettingsCommand.run host' env' (Some main_py)
    = ([MessageDialog
          "Settings file already exists at: /proj/src/Preferences.sublime-settings"],
       (host', env')).
Proof.
  destruct (CreateUberSettingsCommand.run user_prefs_host user_prefs_env (Some main_py))
    as [events [host' env']] eqn:E.
  exists events, host', env'. split; [reflexivity|].
  apply (run_again_is_refused user_prefs_host user_prefs_env (Some main_py)
           events host' env' "/proj/src/Preferences.sublime-settings" E).
  - reflexivity.
  - vm_compute in E. inversion E; subst. reflexivity.
Defined.

(** X16. A copy whose [read] fails leaves an empty settings file behind:
    the target is opened for writing before the source is read. *)
Theorem run_failed_copy_leaves_empty_file host env view file_name e :
  view_bool host view = true ->
  View.file_name view = Some file_name -> file_name <> "" ->
  parent_dir env file_name <> "" ->
  path_exists host (settings_file_of env file_name) = false ->
  path_exists host (user_settings_path host) = true ->
  file_at env (user_settings_path host) = ReadFails e ->
  open_for_writing host (settings_file_of env file_name) = None ->
  exists host' env',
    CreateUberSettingsCommand.run host env (Some view)
    = ([ErrorMessage ("Error copying settings file: " ++ str_exn e)], (host', env')) /\
    file_at env' (settings_file_of env file_name) = Text "" /\
    path_exists host' (settings_file_of env file_name) = true /\
    forall p, p <> settings_file_of env file_name -> file_at env' p = file_at env p.
Proof.
  intros Hb Hf Hne Hp Hx Hu Hr Hw.
  apply String.eqb_neq in Hne, Hp.
  eexists _, _. split; [|split; [|split]].
  - unfold CreateUberSettingsCommand.run. rewrite Hb, Hf, Hne, Hp. cbn [negb].
    fold (settings_file_of env file_name). fold (user_settings_path host).
    rewrite Hx, Hu. unfold open_for_reading. rewrite Hr, Hw. reflexivity.
  - apply write_file_same.
  - cbn. now rewrite String.eqb_refl.
  - intros p Hne'. now apply write_file_other.
Qed.

Lemma run_failed_copy_leaves_empty_file_witness :
  exists host' env',
    CreateUberSettingsCommand.run user_prefs_host broken_prefs_env (Some main_py)
    = ([ErrorMessage "Error copying settings file: invalid start byte"], (host', env')) /\
    file_at env' "/proj/src/Preferences.sublime-settings" = Text "" /\
    path_exists host' "/proj/src/Preferences.sublime-settings" = true.
Proof.
  destruct (run_failed_copy_leaves_empty_file user_prefs_host broken_prefs_env main_py
              "/proj/src/main.py" (UnicodeDecodeError "invalid start byte"))
    as (host' & env' & Hrun & Hfile & Hx & _);
    try reflexivity; try discriminate.
  exists host', env'. auto.
Defined.

Lemma join_onto_directory initial c l name :
  Forall plain (c :: l) -> Str.startswith "/" name = false ->
  PosixPath.join (render initial (c :: l)) name
  = (render initial (c :: l) ++ "/" ++ name)%string.
Proof.
  intros Hall Hn. unfold PosixPath.join. rewrite Hn.
  rewrite (endswith_sep_render initial c l Hall), orb_false_r.
  destruct (String.eqb (render initial (c :: l)) "") eqn:E; [|reflexivity].
  apply String.eqb_eq in E. exfalso. unfold render in E.
  inversion Hall as [|? ? Hc _]; subst.
  destruct (join_first c l Hc) as (a & t & Ej & _). rewrite Ej in E.
  destruct initial; discriminate.
Qed.

Lemma ancestors_head env : forall fuel d dirs,
  ancestors fuel env d = Some dirs -> exists rest, dirs = d :: rest.
Proof.
  intros [|fuel] d dirs H; [discriminate|]. cbn [ancestors] in H.
  destruct (String.eqb (parent_dir env d) ""); [inversion H; eauto|].
  destruct (ancestors fuel env (parent_dir env d)); inversion H; eauto.
Qed.

Lemma host_ok_write_file env path content :
  host_ok env -> host_ok (write_file env path content).
Proof. intros [Hc Hd]. split; [exact Hc | exact Hd]. Qed.

(** X18. The file the command creates is the one the loader reads.  For a
    file that is not directly in the root, a later [view_settings] for
    the same view starts in the directory of the new file, probes it,
    and gives every key of it its value there, unless the syntax file of
    that directory has the key. *)
Theorem created_file_is_resolved
    host env view file_name events host' env' f st syntax_file :
  host_ok env ->
  CreateUberSettingsCommand.run host env (Some view) = (events, (host', env')) ->
  In (WindowOpenFile f) events ->
  View.file_name view = Some file_name ->
  parent_dir env file_name <> "/" -> parent_dir env file_name <> "//" ->
  Dict.get "syntax" (stores st (View.id view)) = Some (JStr syntax_file) ->
  let directory := parent_dir env file_name in
  let syntax_name := PosixPath.splitext_root (PosixPath.basename syntax_file) in
  f = (directory ++ "/Preferences.sublime-settings")%string /\
  exists dirs tr r,
    (forall fuel, length dirs <= fuel ->
       ancestors fuel env' directory = Some dirs /\
       view_settings fuel env' view st = Some (tr, st, r)) /\
    hd "" dirs = directory /\
    forall settings, r = Ok settings ->
      In f (probes tr) /\
      forall content created_settings k v,
        file_at env' f = Text content ->
        decode_value env content = Ok (JDict created_settings) ->
        Dict.get k created_settings = Some v ->
        Dict.get k
          (layer_of env' (directory ++ "/" ++ syntax_name ++ ".sublime-settings"))
        = None ->
        Dict.get k settings = Some v.
Proof.
  intros Hok Hrun Hin Hf Hr1 Hr2 Hs directory syntax_name.
  apply run_inv in Hrun.
  assert (Hcase : exists content,
            parent_dir env file_name <> "" /\
            f = settings_file_of env file_name /\
            env' = write_file env f content).
  { destruct Hrun as [Hno | view' fn Ha Hb Hf' Hne Hd | view' fn Ha Hb Hf' Hne Hd Hx
                 | view' fn e Ha Hb Hf' Hne Hd Hx Hw
                 | view' fn e Ha Hb Hf' Hne Hd Hx Hu Hr Hw
                 | view' fn c Ha Hb Hf' Hne Hd Hx Hu Hr Hw
                 | view' fn Ha Hb Hf' Hne Hd Hx Hu Hw];
      simpl in Hin;
      try (destruct Hin as [Hin|[]]; discriminate);
      (destruct Hin as [Hin|[Hin|[]]]; [discriminate|]);
      inversion Hin; subst f; inversion Ha; subst view';
      rewrite Hf in Hf'; inversion Hf'; subst fn; eauto. }
  destruct Hcase as (content0 & Hd & Hfile & Henv).
  pose proof (cwd_absolute _ Hok) as Hcwd.
  destruct (parent_dir_shape env Hcwd file_name)
    as [E | (initial & comps & Hi & Hall & E)]; [contradiction|].
  destruct comps as [|c l].
  { exfalso. destruct Hi as [-> | ->]; [apply Hr1 | apply Hr2]; exact E. }
  assert (Hname : f = (directory ++ "/Preferences.sublime-settings")%string).
  { rewrite Hfile. unfold settings_file_of, directory. rewrite E.
    now apply join_onto_directory. }
  split; [exact Hname|].
  assert (Hok' : host_ok env') by (rewrite Henv; now apply host_ok_write_file).
  assert (Hcwd' : PosixPath.isabs (getcwd env') = true) by (apply (cwd_absolute _ Hok')).
  assert (Hpd : forall s, parent_dir env' s = parent_dir env s)
    by (intros s; rewrite Henv; reflexivity).
  destruct (ancestors_terminate env' Hcwd' directory) as (dirs & Hdirs).
  destruct (ancestors_head env' _ _ _ (Hdirs _ (le_n _))) as (rest & Hrest).
  destruct (walk_loop_run env' syntax_name (length dirs) [] directory dirs st
              (Hdirs _ (le_n _))) as (tr & r & Hrun' & _ & _ & Hres).
  exists dirs, tr, r. split; [|split].
  - intros fuel Hle. split; [auto|].
    rewrite view_settings_unfold, Hs, Hf, Hpd. eapply walk_loop_mono; eauto.
  - now rewrite Hrest.
  - intros settings Hr. destruct (Hres settings Hr) as (Hprobes & Hget).
    split.
    + rewrite Hprobes, Hrest. cbn [flat_map settings_files]. rewrite Hname.
      right. left. reflexivity.
    + intros content created_settings k v Hc Hdec Hk Hsyn.
      destruct (Hget Hok') as (_ & Hlook); [constructor|].
      rewrite Hlook, Hrest. cbn [Dict.get layers flat_map settings_files map app closer_wins].
      fold syntax_name. rewrite Hsyn.
      assert (Hlayer : layer_of env' (directory ++ "/Preferences.sublime-settings")
                       = created_settings).
      { unfold layer_of, loaded. rewrite <- Hname, Hc.
        replace (decode_value env') with (decode_value env) by (rewrite Henv; reflexivity).
        now rewrite Hdec. }
      now rewrite Hlayer, Hk.
Qed.

Lemma user_prefs_env_ok : host_ok user_prefs_env.
Proof. split; [reflexivity | apply decoder_of_wf; wf_table]. Qed.

Lemma created_file_is_resolved_witness :
  exists events host' env' tr settings,
    CreateUberSettingsCommand.run user_prefs_host user_prefs_env (Some main_py)
    = (events, (host', env')) /\
    view_settings 3 env' main_py fresh_state = Some (tr, fresh_state, Ok settings) /\
    Dict.get "font_size" settings = Some (JNum 14).
Proof.
  destruct (CreateUberSettingsCommand.run user_prefs_host user_prefs_env (Some main_py))
    as [events [host' env']] eqn:E.
  destruct (created_file_is_resolved user_prefs_host user_prefs_env main_py
              "/proj/src/main.py" events host' env'
              "/proj/src/Preferences.sublime-settings" fresh_state
              "Packages/Python/Python.sublime-syntax" user_prefs_env_ok E)
    as (_ & dirs & tr & r & Hrun & _ & Hres);
    try reflexivity; try discriminate.
  { vm_compute in E. inversion E; subst. simpl. auto. }
  assert (Hv : exists tr' settings,
             view_settings 3 env' main_py fresh_state
             = Some (tr', fresh_state, Ok settings)).
  { vm_compute in E. inversion E; subst. eexists _, _. vm_compute. reflexivity. }
  destruct Hv as (tr' & settings & Hv).
  assert (Hlen : length dirs <= 3).
  { destruct (Nat.le_gt_cases (length dirs) 3) as [H|H]; [exact H|].
    destruct (Hrun (length dirs) (le_n _)) as (Ha & _).
    assert (Ha3 : ancestors 3 env' (parent_dir user_prefs_env "/proj/src/main.py")
                  = Some ["/proj/src"; "/proj"; "/"]).
    { vm_compute in E. inversion E; subst. reflexivity. }
    rewrite (ancestors_mono env' 3 (length dirs) _ _ Ha3) in Ha by lia.
    inversion Ha as [Hd]. rewrite <- Hd in H. simpl in H. lia. }
  destruct (Hrun 3 Hlen) as (_ & Hv3). rewrite Hv in Hv3. inversion Hv3; subst tr r.
  exists events, host', env', tr', settings. split; [reflexivity|]. split; [exact Hv|].
  destruct (Hres settings eq_refl) as (_ & Hkey).
  apply (Hkey "user prefs" [("font_size", JNum 14)]).
  - vm_compute in E. inversion E; subst. reflexivity.
  - reflexivity.
  - reflexivity.
  - vm_compute in E. inversion E; subst. reflexivity.
Defined.

Ltac plain_components :=
  repeat constructor; unfold plain; repeat split; try reflexivity; discriminate.

Lemma parent_dir_drops_last_component_witness :
  parent_dir precedence_host
    (Str.repeat_sep 1 ++ Str.join (["proj"; "src"] ++ ["main.py"]))
  = (Str.repeat_sep 1 ++ Str.join ["proj"; "src"])%string.
Proof.
  apply (parent_dir_drops_last_component precedence_host 1 ["proj"; "src"] "main.py").
  - left. reflexivity.
  - plain_components.
Defined.

Lemma parent_dir_empty_iff_root_witness :
  parent_dir precedence_host "/proj" = "" <-> "/proj" = "/" \/ "/proj" = "//".
Proof. exact (parent_dir_empty_iff_root precedence_host "/proj" eq_refl). Defined.

Lemma parent_dir_absolute_normalised_witness :
  PosixPath.isabs (parent_dir precedence_host "src/../main.py") = true /\
  PosixPath.abspath (getcwd precedence_host) (parent_dir precedence_host "src/../main.py")
  = parent_dir precedence_host "src/../main.py" /\
  (Str.endswith_sep (parent_dir precedence_host "src/../main.py") = true ->
   parent_dir precedence_host "src/../main.py" = "/" \/
   parent_dir precedence_host "src/../main.py" = "//").
Proof.
  apply (parent_dir_absolute_normalised precedence_host "src/../main.py" eq_refl).
  intros H. vm_compute in H. discriminate.
Defined.


(** X5. [file_settings] keeps every failure that comes after [open] to
    itself.  When [open] does not refuse the file, it returns, with the
    state as it was and one probe: the empty dictionary and nothing
    opened or printed for a missing file; the empty dictionary and an
    error line after the loading line when [read] or the decoder raises;
    the decoded value and the loading line alone otherwise. *)
Theorem file_settings_contains_failures env file st :
  (forall e, file_at env file <> OpenFails e) ->
  exists tr v,
    file_settings env file st = Some (tr, st, Ok v) /\
    probes tr = [file] /\
    (file_at env file = NotAFile ->
     v = JDict [] /\ opened tr = [] /\ prints tr = []) /\
    (forall e, file_at env file = ReadFails e ->
       v = JDict [] /\ opened tr = [file] /\
       prints tr = [loading_line file; error_line file e]) /\
    (forall content, file_at env file = Text content ->
       opened tr = [file] /\
       match decode_value env content with
       | Ok decoded => v = decoded /\ prints tr = [loading_line file]
       | Raise e => v = JDict [] /\ prints tr = [loading_line file; error_line file e]
       end).
Proof.
  intros Hopen. rewrite file_settings_run.
  pose proof (probes_file_trace env file) as Hprobe.
  unfold loaded, file_trace in *.
  destruct (file_at env file) as [|e|e|content] eqn:E.
  - eexists _, _. split; [reflexivity|]. split; [exact Hprobe|].
    split; [auto|]. split; [intros e' He' | intros content He']; discriminate.
  - exfalso. now apply (Hopen e).
  - eexists _, _. split; [reflexivity|]. split; [exact Hprobe|].
    split; [discriminate|]. split.
    + intros e' He'. inversion He'; subst e'. auto.
    + intros content He'. discriminate.
  - destruct (decode_value env content) as [decoded|e] eqn:D;
      (eexists _, _; split; [reflexivity|]; split; [exact Hprobe|];
       split; [discriminate|]; split; [intros e' He'; discriminate|]);
      intros content' He'; inversion He'; subst content'; rewrite D; auto.
Qed.

Lemma file_settings_contains_failures_witness :
  exists tr,
    file_settings corrupt_host "/proj/src/Preferences.sublime-settings" fresh_state
    = Some (tr, fresh_state, Ok (JDict [])) /\
    prints tr
    = [loading_line "/proj/src/Preferences.sublime-settings";
       error_line "/proj/src/Preferences.sublime-settings"
         (ValueError "Unexpected character")].
Proof.
  destruct (file_settings_contains_failures corrupt_host
              "/proj/src/Preferences.sublime-settings" fresh_state)
    as (tr & v & Hrun & _ & _ & _ & Htext).
  - intros e H. vm_compute in H. discriminate.
  - destruct (Htext "{ not json" eq_refl) as (_ & Hd).
    change (decode_value corrupt_host "{ not json")
      with (@Raise json (ValueError "Unexpected character")) in Hd.
    destruct Hd as (-> & Hp). exists tr. auto.
Defined.

Lemma run_needs_a_file_in_a_directory_witness :
  fst (CreateUberSettingsCommand.run user_prefs_host user_prefs_env (Some unsaved_view))
  = [ErrorMessage "No file is currently open!"] /\
  fst (CreateUberSettingsCommand.run user_prefs_host user_prefs_env (Some root_view))
  = [ErrorMessage "Could not determine project directory!"].
Proof.
  split.
  - apply (proj1 (run_needs_a_file_in_a_directory user_prefs_host user_prefs_env
                    (Some unsaved_view) eq_refl)).
    right. exists unsaved_view. auto.
  - apply (proj1 (proj2 (run_needs_a_file_in_a_directory user_prefs_host user_prefs_env
                           (Some root_view) eq_refl))).
    exists root_view. auto.
Defined.
